(** * Spotify MCP server: token cache, request client, tool handlers, setup flow

    A shallow embedding of [src/server.js].  A second source file holds
    the normal-mode half on its own, with the same token cache, request
    client and tool handlers; it differs in the wording of the "no token"
    message and of the description of [q], and in the way the
    [add_to_playlist] body object is built, not in what they compute.

    Modelling conventions.
    - JavaScript values are the inductive [value]; a JavaScript number is an
      integer or [NaN] ([number]); fractions and infinities are outside the
      model.  The operations on numbers are the exact integer operations.
      They are the operations of the code, which computes on doubles, as
      long as the operands and the result are safe integers, at most 2^53 in
      absolute value ([safe_integer]); beyond, a double is rounded.  What
      [Date.now()] returns is within that range.  A theorem that gives the
      value of a computed number assumes the range.
    - Strings are byte strings (UTF-8).
    - Asynchronous functions are run to completion: a computation is a
      function from the world before to a result (a value or a thrown
      exception) and the world after.  A rejected promise is a thrown
      exception at the [await].
    - Everything the program gets from outside (environment variables, the
      clock, the network, the URL parser, the file system's permissions) is a
      field of a platform class, so the theorems hold for every platform. *)

From stdpp Require Import base option list gmap strings pretty.
From Stdlib Require Import ZArith String Ascii Bool Lia.

#[local] Set Warnings "-register-all".

Open Scope string_scope.
Open Scope Z_scope.

(* ------------------------------------------------------------------ *)
(** ** JavaScript values *)

Inductive number : Type :=
| Int (z : Z)
| NaN.

Inductive value : Type :=
| VUndefined
| VNull
| VBool (b : bool)
| VNum (n : number)
| VStr (s : string)
| VArr (items : list value)
| VObj (fields : list (string * value)).   (* in insertion order *)

(** Integers on which the arithmetic of doubles is exact. *)
Definition safe_integer (z : Z) : Prop :=
  - 2 ^ 53 <= z <= 2 ^ 53.

(** [a + b], [a - b] and [a * b] on numbers, exact (see the conventions
    above for the range in which they are the operations of the code). *)
Definition num_add (a b : number) : number :=
  match a, b with
  | Int x, Int y => Int (x + y)
  | _, _ => NaN
  end.

Definition num_sub (a b : number) : number :=
  match a, b with
  | Int x, Int y => Int (x - y)
  | _, _ => NaN
  end.

Definition num_mul (a b : number) : number :=
  match a, b with
  | Int x, Int y => Int (x * y)
  | _, _ => NaN
  end.

(** [a < b] on numbers: false as soon as one side is [NaN]. *)
Definition num_ltb (a b : number) : bool :=
  match a, b with
  | Int x, Int y => x <? y
  | _, _ => false
  end.

(** ToBoolean. *)
Definition truthy (v : value) : bool :=
  match v with
  | VUndefined | VNull => false
  | VBool b => b
  | VNum (Int z) => negb (z =? 0)
  | VNum NaN => false
  | VStr s => negb (String.eqb s "")
  | VArr _ | VObj _ => true
  end.

(** [a || b] and [a ?? b]. *)
Definition js_or (a b : value) : value := if truthy a then a else b.

Definition nullish (v : value) : bool :=
  match v with
  | VUndefined | VNull => true
  | _ => false
  end.

Definition js_coalesce (a b : value) : value := if nullish a then b else a.

(** [Array.prototype.join] over already converted elements. *)
Definition join_with {A : Type} (f : A -> string) (sep : string)
  : list A -> string :=
  fix go (l : list A) : string :=
    match l with
    | [] => ""
    | x :: r =>
        match r with
        | [] => f x
        | _ :: _ => f x +:+ sep +:+ go r
        end
    end.

Definition number_to_string (n : number) : string :=
  match n with
  | Int z => pretty z
  | NaN => "NaN"
  end.

(** ToString, as a template literal applies it.  Inside an array, [null]
    and [undefined] print as the empty string. *)
Fixpoint js_to_string (v : value) : string :=
  match v with
  | VUndefined => "undefined"
  | VNull => "null"
  | VBool true => "true"
  | VBool false => "false"
  | VNum n => number_to_string n
  | VStr s => s
  | VArr l =>
      join_with
        (fun x => match x with
                  | VUndefined | VNull => ""
                  | _ => js_to_string x
                  end) "," l
  | VObj _ => "[object Object]"
  end.

(** Exceptions.  The source only ever throws [new Error(message)]; the
    others are what the platform throws or rejects with. *)
Inductive exn : Type :=
| JsError (message : string)      (* new Error(message) *)
| TypeError                       (* property of null/undefined, not a function *)
| FetchRejected                   (* the fetch promise rejected *)
| JsonRejected                    (* res.json() rejected *)
| FsError                         (* writeFileSync / appendFileSync threw *)
| InvalidParams.                  (* the host protocol's invalid-input signal *)

Inductive Result (A : Type) : Type :=
| Ok (a : A)
| Throw (e : exn).
Arguments Ok {A} a.
Arguments Throw {A} e.

(** [obj.key] for a data key [key].  Reading a property of [null] or
    [undefined] throws; a primitive or an array has none of the keys the
    program reads. *)
Definition obj_lookup (fields : list (string * value)) (key : string) : value :=
  match List.find (fun kv => String.eqb (fst kv) key) fields with
  | Some kv => snd kv
  | None => VUndefined
  end.

Definition get_prop (v : value) (key : string) : Result value :=
  match v with
  | VUndefined | VNull => Throw TypeError
  | VObj fields => Ok (obj_lookup fields key)
  | _ => Ok VUndefined
  end.

(* ------------------------------------------------------------------ *)
(** ** Computations: state and exceptions *)

Definition M (St A : Type) : Type := St -> Result A * St.

Definition ret {St A} (a : A) : M St A := fun w => (Ok a, w).

Definition throw {St A} (e : exn) : M St A := fun w => (Throw e, w).

Definition bind {St A B} (c : M St A) (k : A -> M St B) : M St B :=
  fun w =>
    match c w with
    | (Ok a, w') => k a w'
    | (Throw e, w') => (Throw e, w')
    end.

Definition lift {St A} (r : Result A) : M St A := fun w => (r, w).

Definition gets {St A} (f : St -> A) : M St A := fun w => (Ok (f w), w).

Definition modify {St} (f : St -> St) : M St unit := fun w => (Ok tt, f w).

(** [try { c } catch (e) { h e }]. *)
Definition try_catch {St A} (c : M St A) (h : exn -> M St A) : M St A :=
  fun w =>
    match c w with
    | (Ok a, w') => (Ok a, w')
    | (Throw e, w') => h e w'
    end.

Declare Scope js_scope.
Delimit Scope js_scope with js.
Notation "'let*' x ':=' c1 'in' c2" := (bind c1 (fun x => c2))
  (at level 10, x name, c1 at level 100, c2 at level 200) : js_scope.
Open Scope js_scope.

(* ------------------------------------------------------------------ *)
(** ** HTTP requests and responses *)

Inductive Body : Type :=
| NoBody
| FormBody (params : list (string * string))   (* a URLSearchParams object *)
| JsonBody (v : value).                        (* JSON.stringify(v) *)

Record Request : Type := {
  req_url : string;
  req_method : string;
  req_headers : list (string * string);
  req_body : Body
}.

(** A response: its status, what [res.text()] resolves to ([None]: it
    rejects) and what [res.json()] resolves to ([None]: it rejects). *)
Record Response : Type := {
  resp_status : Z;
  resp_text : option string;
  resp_json : option value
}.

(** [res.ok]: the status is in the range 200-299. *)
Definition resp_ok (r : Response) : bool :=
  (200 <=? resp_status r) && (resp_status r <=? 299).

(** [await res.text().catch(() => "")]. *)
Definition text_or_empty (r : Response) : string :=
  match resp_text r with
  | Some t => t
  | None => ""
  end.

(** [URLSearchParams.prototype.set]. *)
Fixpoint params_set (k v : string) (ps : list (string * string))
  : list (string * string) :=
  match ps with
  | [] => [(k, v)]
  | (k', v') :: r =>
      if String.eqb k' k
      then (k, v) :: List.filter (fun kv => negb (String.eqb (fst kv) k)) r
      else (k', v') :: params_set k v r
  end.

(** [Buffer.from(s).toString("base64")]. *)
Definition b64_alphabet : string :=
  "ABCDEFGHIJKLMNOPQRSTUVWXYZabcdefghijklmnopqrstuvwxyz0123456789+/".

Definition b64_char (n : N) : string :=
  match String.get (N.to_nat (N.land n 63)) b64_alphabet with
  | Some c => String c ""
  | None => ""
  end.

Fixpoint base64 (s : string) : string :=
  match s with
  | "" => ""
  | String a "" =>
      let n := N.shiftl (N_of_ascii a) 16 in
      b64_char (N.shiftr n 18) +:+ b64_char (N.shiftr n 12) +:+ "=="
  | String a (String b "") =>
      let n := N.lor (N.shiftl (N_of_ascii a) 16) (N.shiftl (N_of_ascii b) 8) in
      b64_char (N.shiftr n 18) +:+ b64_char (N.shiftr n 12)
        +:+ b64_char (N.shiftr n 6) +:+ "="
  | String a (String b (String c r)) =>
      let n := N.lor (N.lor (N.shiftl (N_of_ascii a) 16)
                            (N.shiftl (N_of_ascii b) 8)) (N_of_ascii c) in
      b64_char (N.shiftr n 18) +:+ b64_char (N.shiftr n 12)
        +:+ b64_char (N.shiftr n 6) +:+ b64_char n +:+ base64 r
  end.

(* ------------------------------------------------------------------ *)
(** ** Normal mode: the platform *)

(** What normal mode gets from outside.
    - [process_env]: the environment variables ([process.env]).
    - [Date_now k]: what the [k]-th call of [Date.now()] returns.
    - [fetch_reply log rq]: what [fetch(rq)] resolves to after the requests
      [log] have been made ([None]: the promise rejects).
    - [StringToNumber]: the numeric value of a string ([Number(s)]). *)
Class Platform : Type := {
  process_env : gmap string string;
  Date_now : nat -> Z;
  fetch_reply : list Request -> Request -> option Response;
  StringToNumber : string -> number
}.

(** The in-memory token cache: the two module-level [let] bindings. *)
Record TokenStore : Type := {
  ACCESS_TOKEN : value;
  ACCESS_TOKEN_EXP : number   (* epoch ms *)
}.

(** The world of normal mode: the token cache, the requests sent so far
    (oldest first) and the number of clock readings taken. *)
Record World : Type := {
  store : TokenStore;
  net_log : list Request;
  clock_reads : nat
}.

(** The world after one more reading of the clock. *)
Definition tick (w : World) : World :=
  {| store := store w;
     net_log := net_log w;
     clock_reads := S (clock_reads w) |}.

(** The test of the first [if] of [refreshAccessTokenIfNeeded]:
    [ACCESS_TOKEN && now < ACCESS_TOKEN_EXP - 30_000]. *)
Definition cache_usable (now : number) (s : TokenStore) : bool :=
  truthy (ACCESS_TOKEN s)
  && num_ltb now (num_sub (ACCESS_TOKEN_EXP s) (Int 30000)).

Definition set_ACCESS_TOKEN (v : value) : M World unit :=
  modify (fun w =>
    {| store := {| ACCESS_TOKEN := v;
                   ACCESS_TOKEN_EXP := ACCESS_TOKEN_EXP (store w) |};
       net_log := net_log w;
       clock_reads := clock_reads w |}).

Definition set_ACCESS_TOKEN_EXP (n : number) : M World unit :=
  modify (fun w =>
    {| store := {| ACCESS_TOKEN := ACCESS_TOKEN (store w);
                   ACCESS_TOKEN_EXP := n |};
       net_log := net_log w;
       clock_reads := clock_reads w |}).

Section NormalMode.
Context `{Platform}.

(** [const env = (k, d = undefined) => process.env[k] ?? d]. *)
Definition env (k : string) (d : value) : value :=
  match process_env !! k with
  | Some s => VStr s
  | None => d
  end.

(** [Number(v)]. *)
Definition to_number (v : value) : number :=
  match v with
  | VUndefined => NaN
  | VNull => Int 0
  | VBool true => Int 1
  | VBool false => Int 0
  | VNum n => n
  | VStr s => StringToNumber s
  | VArr _ | VObj _ => StringToNumber (js_to_string v)
  end.

(** [Date.now()]. *)
Definition Date_now_read : M World number :=
  fun w => (Ok (Int (Date_now (clock_reads w))), tick w).

(** [await fetch(url, init)]: the request is appended to the log. *)
Definition fetch (rq : Request) : M World Response :=
  fun w =>
    let w' := {| store := store w;
                 net_log := net_log w ++ [rq];
                 clock_reads := clock_reads w |} in
    match fetch_reply (net_log w) rq with
    | Some r => (Ok r, w')
    | None => (Throw FetchRejected, w')
    end.

(** [await res.json()]. *)
Definition res_json (r : Response) : M World value :=
  match resp_json r with
  | Some v => ret v
  | None => throw JsonRejected
  end.

(** The token the module starts with:
    [let ACCESS_TOKEN = env("SPOTIFY_ACCESS_TOKEN") || null;
     let ACCESS_TOKEN_EXP = 0]. *)
Definition initial_store : TokenStore :=
  {| ACCESS_TOKEN := js_or (env "SPOTIFY_ACCESS_TOKEN" VUndefined) VNull;
     ACCESS_TOKEN_EXP := Int 0 |}.

Definition initial_world : World :=
  {| store := initial_store; net_log := []; clock_reads := 0 |}.

(** The request of the refresh grant. *)
Definition refresh_request (clientId clientSecret refreshToken : value)
  : Request :=
  let body :=
    params_set "refresh_token" (js_to_string refreshToken)
      (params_set "grant_type" "refresh_token" []) in
  let basic :=
    base64 (js_to_string clientId +:+ ":" +:+ js_to_string clientSecret) in
  {| req_url := "https://accounts.spotify.com/api/token";
     req_method := "POST";
     req_headers :=
       [("Authorization", "Basic " +:+ basic);
        ("Content-Type", "application/x-www-form-urlencoded")];
     req_body := FormBody body |}.

(** The test of the second [if]:
    [!clientId || !clientSecret || !refreshToken]. *)
Definition refresh_secret_missing : bool :=
  negb (truthy (env "SPOTIFY_CLIENT_ID" VUndefined))
  || negb (truthy (env "SPOTIFY_CLIENT_SECRET" VUndefined))
  || negb (truthy (env "SPOTIFY_REFRESH_TOKEN" VUndefined)).

Definition refreshAccessTokenIfNeeded : M World value :=
  let* now := Date_now_read in
  let* cached := gets store in
  if cache_usable now cached then ret (ACCESS_TOKEN cached)
  else
    let clientId := env "SPOTIFY_CLIENT_ID" VUndefined in
    let clientSecret := env "SPOTIFY_CLIENT_SECRET" VUndefined in
    let refreshToken := env "SPOTIFY_REFRESH_TOKEN" VUndefined in
    if refresh_secret_missing
    then gets (fun w => ACCESS_TOKEN (store w))
    else
      let* res := fetch (refresh_request clientId clientSecret refreshToken) in
      if negb (resp_ok res) then
        let txt := text_or_empty res in
        throw (JsError ("Spotify token refresh failed: "
                          +:+ pretty (resp_status res) +:+ " " +:+ txt))
      else
        let* data := res_json res in
        let* access_token := lift (get_prop data "access_token") in
        let* _ := set_ACCESS_TOKEN access_token in
        let* expires_in := lift (get_prop data "expires_in") in
        let expiresInSec :=
          to_number (js_coalesce expires_in (VNum (Int 3600))) in
        let* now2 := Date_now_read in
        let* _ := set_ACCESS_TOKEN_EXP
                    (num_add now2 (num_mul expiresInSec (Int 1000))) in
        gets (fun w => ACCESS_TOKEN (store w)).

(** The refresh request built from the configured secret. *)
Definition configured_refresh_request : Request :=
  refresh_request (env "SPOTIFY_CLIENT_ID" VUndefined)
    (env "SPOTIFY_CLIENT_SECRET" VUndefined)
    (env "SPOTIFY_REFRESH_TOKEN" VUndefined).

(** The request [spotifyFetch] sends with the bearer token [token]. *)
Definition api_request (token : value) (endpoint method : string)
    (jsonBody : value) : Request :=
  {| req_url := "https://api.spotify.com/" +:+ endpoint;
     req_method := method;
     req_headers :=
       [("Authorization", "Bearer " +:+ js_to_string token);
        ("Content-Type", "application/json")];
     req_body := if truthy jsonBody then JsonBody jsonBody else NoBody |}.

Definition no_token_message : string :=
  "No Spotify access token. Provide SPOTIFY_ACCESS_TOKEN or set refresh env vars.".

(** [spotifyFetch(endpoint, method = "GET", jsonBody = undefined)]; the
    callers that leave an argument out pass its default. *)
Definition spotifyFetch (endpoint method : string) (jsonBody : value)
  : M World value :=
  let* token := refreshAccessTokenIfNeeded in
  if negb (truthy token) then throw (JsError no_token_message)
  else
    let* res := fetch (api_request token endpoint method jsonBody) in
    if negb (resp_ok res) then
      let txt := text_or_empty res in
      throw (JsError ("Spotify API error: "
                        +:+ pretty (resp_status res) +:+ " " +:+ txt))
    else res_json res.

End NormalMode.

(* ------------------------------------------------------------------ *)
(** ** Input schemas

    The tools declare their input with zod builders, and the protocol
    runtime validates the arguments of a call against the declaration
    before it calls the handler.  The declarations are in the sources; zod
    and the runtime are libraries, which the sources only import.  [zod]
    holds the builders the two modelled tools use. *)

Inductive num_check : Type :=
| NInt              (* .int() *)
| NMin (z : Z)      (* .min(z) *)
| NMax (z : Z).     (* .max(z) *)

Inductive zod : Type :=
| ZString                                      (* z.string() *)
| ZNumber (checks : list num_check)            (* z.number()... *)
| ZArray (elem : zod) (min_len : option nat)   (* z.array(elem)[.min(n)] *)
| ZOptional (inner : zod)                      (* .optional() *)
| ZDefault (inner : zod) (d : value)           (* .default(d) *)
| ZDescribe (inner : zod) (text : string).     (* .describe(text) *)

Definition num_check_ok (z : Z) (c : num_check) : bool :=
  match c with
  | NInt => true          (* every modelled number is an integer *)
  | NMin a => a <=? z
  | NMax b => z <=? b
  end.

Definition map_option {A B : Type} (f : A -> option B)
  : list A -> option (list B) :=
  fix go (l : list A) : option (list B) :=
    match l with
    | [] => Some []
    | x :: r =>
        match f x, go r with
        | Some y, Some ys => Some (y :: ys)
        | _, _ => None
        end
    end.

(** Modelled from the spec: the validation of one value against a declared
    schema, which the zod library does (it is not among the sources).  The
    specification has it declarative: type, numeric bounds, a non-empty
    list, required or optional, defaults.  [None] is a violation, [Some v]
    the accepted value with the defaults filled in. *)
Fixpoint zod_parse (s : zod) (v : value) : option value :=
  match s with
  | ZString =>
      match v with
      | VStr _ => Some v
      | _ => None
      end
  | ZNumber checks =>
      match v with
      | VNum (Int z) =>
          if forallb (num_check_ok z) checks then Some v else None
      | _ => None
      end
  | ZArray elem min_len =>
      match v with
      | VArr l =>
          match map_option (zod_parse elem) l with
          | Some l' =>
              match min_len with
              | Some n =>
                  if (n <=? List.length l)%nat then Some (VArr l') else None
              | None => Some (VArr l')
              end
          | None => None
          end
      | _ => None
      end
  | ZOptional inner =>
      match v with
      | VUndefined => Some VUndefined
      | _ => zod_parse inner v
      end
  | ZDefault inner d =>
      match v with
      | VUndefined => zod_parse inner d
      | _ => zod_parse inner v
      end
  | ZDescribe inner _ => zod_parse inner v
  end.

(** Modelled from the spec: the arguments object against the declared
    shape (zod's object schema): every declared key is validated (an absent
    key is [undefined]); undeclared keys are dropped. *)
Definition parse_shape (shape : list (string * zod)) (args : value)
  : option value :=
  match args with
  | VObj fields =>
      match map_option
              (fun ks : string * zod =>
                 match zod_parse (snd ks) (obj_lookup fields (fst ks)) with
                 | Some v => Some (fst ks, v)
                 | None => None
                 end) shape with
      | Some parsed => Some (VObj parsed)
      | None => None
      end
  | _ => None
  end.

(* ------------------------------------------------------------------ *)
(** ** Helpers of the tool handlers *)

Definition hex_digit (n : N) : string :=
  match String.get (N.to_nat (N.land n 15)) "0123456789ABCDEF" with
  | Some c => String c ""
  | None => ""
  end.

(** The bytes [encodeURIComponent] leaves as they are:
    [A-Z a-z 0-9 - _ . ! ~ * ' ( )]. *)
Definition uri_unreserved (c : ascii) : bool :=
  let n := N_of_ascii c in
  ((65 <=? n) && (n <=? 90) || (97 <=? n) && (n <=? 122)
   || (48 <=? n) && (n <=? 57)
   || existsb (N.eqb n) [45; 95; 46; 33; 126; 42; 39; 40; 41])%N.

Fixpoint encodeURIComponent (s : string) : string :=
  match s with
  | "" => ""
  | String c r =>
      (if uri_unreserved c then String c ""
       else "%" +:+ hex_digit (N.shiftr (N_of_ascii c) 4)
                +:+ hex_digit (N_of_ascii c))
      +:+ encodeURIComponent r
  end.

(** [v.length]; a string's length is its number of bytes here, which is its
    JavaScript length for ASCII text. *)
Definition js_length (v : value) : Result value :=
  match v with
  | VUndefined | VNull => Throw TypeError
  | VArr l => Ok (VNum (Int (Z.of_nat (List.length l))))
  | VStr s => Ok (VNum (Int (Z.of_nat (String.length s))))
  | _ => Ok VUndefined
  end.

(** A destructured parameter of a handler: [({ key }) => ...]. *)
Definition obj_lookup_value (args : value) (key : string) : value :=
  match args with
  | VObj fields => obj_lookup fields key
  | _ => VUndefined
  end.

(** [typeof v === "number"]. *)
Definition is_number (v : value) : bool :=
  match v with
  | VNum _ => true
  | _ => false
  end.

(** [arr.map((x, i) => f x i)] from index [i]; calling [map] on something
    that is not an array throws. *)
Definition map_from {B : Type} (f : value -> nat -> Result B)
  : list value -> nat -> Result (list B) :=
  fix go (l : list value) (i : nat) : Result (list B) :=
    match l with
    | [] => Ok []
    | x :: r =>
        match f x i with
        | Ok y =>
            match go r (S i) with
            | Ok ys => Ok (y :: ys)
            | Throw e => Throw e
            end
        | Throw e => Throw e
        end
    end.

Definition array_map {B : Type} (v : value) (f : value -> nat -> Result B)
  : Result (list B) :=
  match v with
  | VArr l => map_from f l 0%nat
  | _ => Throw TypeError
  end.

(** [arr.join(sep)] on an array of values. *)
Definition join_values (sep : string) (l : list value) : string :=
  join_with
    (fun x => match x with
              | VUndefined | VNull => ""
              | _ => js_to_string x
              end) sep l.

Definition LF : string := String (ascii_of_nat 10) "".

(** [a?.key]. *)
Definition get_prop_opt (a : value) (key : string) : Result value :=
  if nullish a then Ok VUndefined else get_prop a key.

(** The result object of a handler with one text block:
    [{ content: [{ type: "text", text }] }]. *)
Definition text_result (text : value) : value :=
  VObj [("content", VArr [VObj [("type", VStr "text"); ("text", text)]])].

(** One line of the search result:
    [`${i + 1}. ${t.name} — ${t.artists.map((a) => a.name).join(", ")}  [${t.uri}]`]. *)
Definition search_line (t : value) (i : nat) : Result value :=
  match get_prop t "name" with
  | Throw e => Throw e
  | Ok name =>
      match get_prop t "artists" with
      | Throw e => Throw e
      | Ok artists =>
          match array_map artists (fun a _ => get_prop a "name") with
          | Throw e => Throw e
          | Ok names =>
              match get_prop t "uri" with
              | Throw e => Throw e
              | Ok uri =>
                  Ok (VStr (pretty (Z.of_nat i + 1) +:+ ". "
                              +:+ js_to_string name +:+ " — "
                              +:+ join_values ", " names +:+ "  ["
                              +:+ js_to_string uri +:+ "]"))
              end
          end
      end
  end.

(** [data.tracks?.items ?? []]. *)
Definition track_items (data : value) : Result value :=
  match get_prop data "tracks" with
  | Throw e => Throw e
  | Ok tracks =>
      match get_prop_opt tracks "items" with
      | Throw e => Throw e
      | Ok tracks_items => Ok (js_coalesce tracks_items (VArr []))
      end
  end.

(** [`v1/search?type=track&limit=${limit}&q=${encodeURIComponent(q)}`]. *)
Definition search_endpoint (args : value) : string :=
  let q := obj_lookup_value args "q" in
  let limit := obj_lookup_value args "limit" in
  "v1/search?type=track&limit=" +:+ js_to_string limit
    +:+ "&q=" +:+ encodeURIComponent (js_to_string q).

Definition no_tracks_message : string :=
  "No tracks found. Try a different query or filters.".

(* ------------------------------------------------------------------ *)
(** ** Tools *)

Record Tool : Type := {
  tool_name : string;
  inputSchema : list (string * zod);
  tool_handler : value -> M World value
}.

(** Modelled from the spec: the dispatch of a tool call, which the protocol
    runtime does (it is not among the sources).  A violation of the declared
    input is rejected through the protocol's invalid-input signal before the
    handler logic is reached; otherwise the handler gets the validated
    arguments. *)
Definition callTool (t : Tool) (args : value) : M World value :=
  match parse_shape (inputSchema t) args with
  | Some parsed => tool_handler t parsed
  | None => throw InvalidParams
  end.

Section Tools.
Context `{Platform}.

Definition add_to_playlist_schema : list (string * zod) :=
  [("playlistId", ZString);
   ("uris", ZArray ZString (Some 1%nat));
   ("position", ZOptional (ZNumber [NInt]))].

Definition add_to_playlist_handler (args : value) : M World value :=
  let playlistId := obj_lookup_value args "playlistId" in
  let uris := obj_lookup_value args "uris" in
  let position := obj_lookup_value args "position" in
  let body :=
    VObj (("uris", uris)
            :: (if is_number position then [("position", position)] else [])) in
  let* _ := spotifyFetch
              ("v1/playlists/" +:+ encodeURIComponent (js_to_string playlistId)
                 +:+ "/tracks") "POST" body in
  let* n := lift (js_length uris) in
  ret (text_result
         (VStr ("Added " +:+ js_to_string n +:+ " track(s) to playlist "
                  +:+ js_to_string playlistId +:+ "."))).

Definition spotify_add_to_playlist : Tool :=
  {| tool_name := "spotify_add_to_playlist";
     inputSchema := add_to_playlist_schema;
     tool_handler := add_to_playlist_handler |}.

Definition search_tracks_schema : list (string * zod) :=
  [("q", ZDescribe ZString "Query, e.g., 'lofi beats tempo:90'");
   ("limit", ZDefault (ZNumber [NInt; NMin 1; NMax 50]) (VNum (Int 10)))].

Definition search_tracks_handler (args : value) : M World value :=
  let* data := spotifyFetch (search_endpoint args) "GET" VUndefined in
  let* items := lift (track_items data) in
  let* lines := lift (array_map items search_line) in
  ret (text_result (js_or (VStr (join_values LF lines))
                          (VStr no_tracks_message))).

Definition spotify_search_tracks : Tool :=
  {| tool_name := "spotify_search_tracks";
     inputSchema := search_tracks_schema;
     tool_handler := search_tracks_handler |}.

End Tools.

(* ------------------------------------------------------------------ *)
(** ** Setup mode ([--setup]): the one-time OAuth flow *)

(** What setup mode gets from outside.
    - [setup_env]: the environment variables.
    - [random_state]: [randomBytes(8).toString("hex")].
    - [url_search_params u]: the query pairs of [new URL(u, REDIRECT_URI)],
      in order ([None]: the constructor throws).
    - [exchange_reply rq]: what the token endpoint answers ([None]: the
      fetch promise rejects).
    - [fs_write_fails p]: writing the file [p] throws. *)
Class SetupPlatform : Type := {
  setup_env : gmap string string;
  random_state : string;
  url_search_params : string -> option (list (string * string));
  exchange_reply : Request -> option Response;
  fs_write_fails : string -> bool
}.

Inductive log_arg : Type :=
| LVal (v : value)
| LJson (v : value)     (* JSON.stringify(v) *)
| LExn (e : exn).

(** What the flow does to the outside, in order. *)
Inductive Event : Type :=
| Log (args : list log_arg)                    (* console.log(...args) *)
| Respond (status : Z) (headers : list (string * string)) (body : string)
                                               (* res.writeHead; res.end *)
| Fetch (rq : Request)                         (* fetch(...) *)
| Exec (cmd : string).                         (* exec(cmd) *)

(** No event of the list is a request to the token endpoint. *)
Definition no_fetch (evs : list Event) : Prop :=
  forall rq : Request, ~ In (Fetch rq) evs.

(** The listener awaits the callback until the process exits. *)
Inductive Flow : Type :=
| Awaiting
| Exited (code : Z).

Record SetupWorld : Type := {
  files : gmap string string;    (* the files of the working directory *)
  events : list Event;           (* oldest first *)
  flow : Flow
}.

Definition REDIRECT_URI : string := "http://127.0.0.1:8888/callback".

Definition SCOPES : string :=
  join_with id " "
    ["user-top-read"; "playlist-modify-private"; "playlist-modify-public"].

Definition emit (e : Event) : M SetupWorld unit :=
  modify (fun w =>
    {| files := files w; events := events w ++ [e]; flow := flow w |}).

Definition console_log (args : list log_arg) : M SetupWorld unit :=
  emit (Log args).

(** [res.writeHead(status, headers); res.end(body)]. *)
Definition respond (status : Z) (headers : list (string * string))
    (body : string) : M SetupWorld unit :=
  emit (Respond status headers body).

(** [process.exit(code)]. *)
Definition process_exit (code : Z) : M SetupWorld unit :=
  modify (fun w =>
    {| files := files w; events := events w; flow := Exited code |}).

(** [function shutdown(code = 0) { server.close(() => process.exit(code)); }]:
    the listener closes and the process exits with [code].  The source
    defers the exit to the callback of [server.close]; the model takes it at
    the call, so it says what one request does up to its shutdown, not what
    a request reaching the handler between the close and the exit would
    do. *)
Definition shutdown (code : Z) : M SetupWorld unit :=
  process_exit code.

Definition existsSync (path : string) : M SetupWorld bool :=
  gets (fun w => match files w !! path with
                 | Some _ => true
                 | None => false
                 end).

(** [searchParams.get(key)]: the first value of the name, or [null]. *)
Definition search_get (ps : list (string * string)) (key : string) : value :=
  match List.find (fun kv => String.eqb (fst kv) key) ps with
  | Some kv => VStr (snd kv)
  | None => VNull
  end.

(** [v !== s] for a string [s]. *)
Definition strict_ne_string (v : value) (s : string) : bool :=
  match v with
  | VStr t => negb (String.eqb t s)
  | _ => true
  end.

(** [req.url?.startsWith(prefix)], under the [!] of the source: an absent
    URL gives [undefined], which is falsy. *)
Definition url_startsWith (url : option string) (prefix : string) : bool :=
  match url with
  | Some u => String.prefix prefix u
  | None => false
  end.

(** The path of a request URL: what precedes the first [?] or [#].  The
    source never computes it; the specification speaks of request paths. *)
Fixpoint request_path (u : string) : string :=
  match u with
  | "" => ""
  | String c r =>
      if (Ascii.eqb c "?" || Ascii.eqb c "#")%char then ""
      else String c (request_path r)
  end.

(** A query-string reader for URLs without escapes, to run the flow on
    concrete requests: the pairs [k=v] between the first [?] and the first
    [#], separated by [&]. *)
Fixpoint split_on (sep : ascii) (s : string) : list string :=
  match s with
  | "" => [""]
  | String c r =>
      if Ascii.eqb c sep then "" :: split_on sep r
      else match split_on sep r with
           | [] => [String c ""]
           | h :: t => String c h :: t
           end
  end.

Definition plain_pair (kv : string) : string * string :=
  match split_on "="%char kv with
  | [] => ("", "")
  | k :: vs => (k, join_with id "=" vs)
  end.

Definition plain_search_params (u : string)
  : option (list (string * string)) :=
  match split_on "#"%char u with
  | [] => Some []
  | before_hash :: _ =>
      match split_on "?"%char before_hash with
      | [] | [_] => Some []
      | _ :: qs =>
          Some (List.map plain_pair
                  (List.filter (fun kv => negb (String.eqb kv ""))
                     (split_on "&"%char (join_with id "?" qs))))
      end
  end.

Section SetupMode.
Context `{SetupPlatform}.

Definition setup_env_or (k d : string) : string :=
  match setup_env !! k with
  | Some s => s
  | None => d
  end.

Definition CLIENT_ID : string := setup_env_or "SPOTIFY_CLIENT_ID" "".
Definition CLIENT_SECRET : string := setup_env_or "SPOTIFY_CLIENT_SECRET" "".
Definition STATE : string := random_state.

Definition AUTH_URL : string :=
  "https://accounts.spotify.com/authorize"
    +:+ "?client_id=" +:+ encodeURIComponent CLIENT_ID
    +:+ "&response_type=code"
    +:+ "&redirect_uri=" +:+ encodeURIComponent REDIRECT_URI
    +:+ "&scope=" +:+ encodeURIComponent SCOPES
    +:+ "&state=" +:+ encodeURIComponent STATE.

Definition writeFileSync (path content : string) : M SetupWorld unit :=
  if fs_write_fails path then throw FsError
  else modify (fun w =>
    {| files := <[path := content]> (files w);
       events := events w; flow := flow w |}).

Definition appendFileSync (path content : string) : M SetupWorld unit :=
  if fs_write_fails path then throw FsError
  else modify (fun w =>
    {| files := <[path := match files w !! path with
                          | Some old => old +:+ content
                          | None => content
                          end]> (files w);
       events := events w; flow := flow w |}).

Definition setup_fetch (rq : Request) : M SetupWorld Response :=
  let* _ := emit (Fetch rq) in
  match exchange_reply rq with
  | Some r => ret r
  | None => throw FetchRejected
  end.

Definition setup_res_json (r : Response) : M SetupWorld value :=
  match resp_json r with
  | Some v => ret v
  | None => throw JsonRejected
  end.

(** The request of the authorization-code grant. *)
Definition exchange_request (code : string) : Request :=
  let body :=
    params_set "client_secret" CLIENT_SECRET
      (params_set "client_id" CLIENT_ID
         (params_set "redirect_uri" REDIRECT_URI
            (params_set "code" code
               (params_set "grant_type" "authorization_code" [])))) in
  {| req_url := "https://accounts.spotify.com/api/token";
     req_method := "POST";
     req_headers := [("Content-Type", "application/x-www-form-urlencoded")];
     req_body := FormBody body |}.

(** The lines written to [.env]. *)
Definition env_lines (refresh access : value) : string :=
  join_with id LF
    ["SPOTIFY_CLIENT_ID=" +:+ CLIENT_ID;
     "SPOTIFY_CLIENT_SECRET=" +:+ CLIENT_SECRET;
     "SPOTIFY_REFRESH_TOKEN=" +:+ js_to_string refresh;
     "# Optional: SPOTIFY_ACCESS_TOKEN=" +:+ js_to_string access;
     ""].

(** The [try] block that persists the credentials. *)
Definition persist (lines : string) : M SetupWorld unit :=
  let* has_env := existsSync ".env" in
  let* _ :=
    if negb has_env
    then let* _ := writeFileSync ".env" lines in
         console_log [LVal (VStr "📝 Wrote .env")]
    else let* _ := appendFileSync ".env" (LF +:+ lines) in
         console_log [LVal (VStr "📝 Appended to .env")] in
  let* has_ignore := existsSync ".gitignore" in
  if negb has_ignore
  then let* _ := writeFileSync ".gitignore" (".env" +:+ LF) in
       console_log [LVal (VStr "🛡️  Created .gitignore")]
  else ret tt.

(** The body of the request handler's [try] block. *)
Definition callback_body (url : option string) : M SetupWorld unit :=
  if negb (url_startsWith url "/callback")
  then respond 404 [] "Not found"
  else
    let* ps := lift (match url_search_params (default "" url) with
                     | Some ps => Ok ps
                     | None => Throw TypeError
                     end) in
    let code := search_get ps "code" in
    let state := search_get ps "state" in
    let error := search_get ps "error" in
    if truthy error then
      let* _ := console_log [LVal (VStr "Spotify error:"); LVal error] in
      let* _ := respond 400 [] "Auth error" in
      shutdown 1
    else if negb (truthy code) || strict_ne_string state STATE then
      let* _ := console_log [LVal (VStr "Missing code or state mismatch")] in
      let* _ := respond 400 [] "Bad request" in
      shutdown 1
    else
      (* Exchange code -> tokens *)
      let* r := setup_fetch (exchange_request (js_to_string code)) in
      if negb (resp_ok r) then
        let txt := text_or_empty r in
        let* _ := console_log [LVal (VStr "Token exchange failed:");
                               LVal (VNum (Int (resp_status r)));
                               LVal (VStr txt)] in
        let* _ := respond 500 [] "Token exchange failed" in
        shutdown 1
      else
        let* json := setup_res_json r in
        let* access := lift (get_prop json "access_token") in
        let* refresh := lift (get_prop json "refresh_token") in
        let* expires := lift (get_prop json "expires_in") in
        let* _ := console_log
                    [LVal (VStr (LF +:+ "✅ Success! Save these (also writing .env):"))] in
        let* _ := console_log [LVal (VStr "SPOTIFY_REFRESH_TOKEN="); LVal refresh] in
        let* _ := console_log
                    [LVal (VStr "SPOTIFY_ACCESS_TOKEN ="); LVal access;
                     LVal (VStr ("(expires in " +:+ js_to_string expires +:+ "s)"))] in
        let lines := env_lines refresh access in
        let* _ := try_catch (persist lines)
                    (fun e => console_log
                                [LVal (VStr "Could not write .env/.gitignore:");
                                 LExn e]) in
        let* _ := respond 200 [("Content-Type", "text/html")]
                    "<h1>All set!</h1><p>You can close this window.</p>" in
        shutdown 0.

(** The request handler given to [http.createServer].  No path reaches the
    [catch] after a reply was sent, so the inner [try] around the reply of
    the [catch] never catches. *)
Definition on_request (url : option string) : M SetupWorld unit :=
  try_catch (callback_body url)
    (fun e =>
       let* _ := console_log [LExn e] in
       let* _ := respond 500 [] "Internal error" in
       process_exit 1).

(** One request arriving at the listener while the flow is awaiting the
    callback.  (Nothing is stated about a request after a shutdown: the
    second case only makes the function total.) *)
Definition listener_step (url : option string) (w : SetupWorld) : SetupWorld :=
  match flow w with
  | Awaiting => snd (on_request url w)
  | Exited _ => w
  end.

(** The start of setup mode, up to the listener listening. *)
Definition setup_start : M SetupWorld unit :=
  if negb (truthy (VStr CLIENT_ID)) || negb (truthy (VStr CLIENT_SECRET)) then
    let* _ := console_log
                [LVal (VStr "Set SPOTIFY_CLIENT_ID and SPOTIFY_CLIENT_SECRET before running --setup.")] in
    process_exit 1
  else
    let* _ := console_log [LVal (VStr "Client ID:"); LJson (VStr CLIENT_ID)] in
    let* _ := console_log [LVal (VStr "Redirect URI:"); LJson (VStr REDIRECT_URI)] in
    let* _ := console_log [LVal (VStr "Listening on http://127.0.0.1:8888/callback")] in
    let* _ := console_log
                [LVal (VStr (LF +:+ "If your browser doesn't open, open this URL:" +:+ LF))] in
    let* _ := console_log [LVal (VStr (AUTH_URL +:+ LF))] in
    emit (Exec ("open " +:+ String (ascii_of_nat 34) AUTH_URL
                  +:+ String (ascii_of_nat 34) "")).

End SetupMode.

(* ------------------------------------------------------------------ *)
(** ** Concrete platforms, to run the model *)

Definition ok_response (v : value) : Response :=
  {| resp_status := 200; resp_text := None; resp_json := Some v |}.

Definition error_response (status : Z) (text : string) : Response :=
  {| resp_status := status; resp_text := Some text; resp_json := None |}.

(** No environment variable is set and the network is down. *)
Definition bare_platform : Platform :=
  {| process_env := ∅;
     Date_now := fun k => 1000000 + Z.of_nat k;
     fetch_reply := fun _ _ => None;
     StringToNumber := fun _ => NaN |}.

Definition full_env : gmap string string :=
  {[ "SPOTIFY_CLIENT_ID" := "id";
     "SPOTIFY_CLIENT_SECRET" := "secret";
     "SPOTIFY_REFRESH_TOKEN" := "refresh" ]}.

(** A complete refresh secret; the authorization server grants a token for
    an hour and the API finds no track. *)
Definition granting_platform : Platform :=
  {| process_env := full_env;
     Date_now := fun k => 1000000 + Z.of_nat k;
     fetch_reply := fun log _ =>
       match log with
       | [] => Some (ok_response
                       (VObj [("access_token", VStr "fresh-token");
                              ("expires_in", VNum (Int 3600))]))
       | _ => Some (ok_response (VObj [("tracks", VObj [("items", VArr [])])]))
       end;
     StringToNumber := fun _ => NaN |}.

(** A complete refresh secret; every request is answered 401. *)
Definition refusing_platform : Platform :=
  {| process_env := full_env;
     Date_now := fun k => 1000000 + Z.of_nat k;
     fetch_reply := fun _ _ => Some (error_response 401 "denied");
     StringToNumber := fun _ => NaN |}.

(** A world whose cached token is good for another minute. *)
Definition warm_world `{Platform} : World :=
  {| store := {| ACCESS_TOKEN := VStr "cached-token";
                 ACCESS_TOKEN_EXP := Int (Date_now 0 + 60000) |};
     net_log := [];
     clock_reads := 0 |}.

Definition demo_setup : SetupPlatform :=
  {| setup_env := {[ "SPOTIFY_CLIENT_ID" := "id";
                     "SPOTIFY_CLIENT_SECRET" := "secret" ]};
     random_state := "0123456789abcdef";
     url_search_params := plain_search_params;
     exchange_reply := fun _ =>
       Some (ok_response (VObj [("access_token", VStr "AT");
                                ("refresh_token", VStr "RT");
                                ("expires_in", VNum (Int 3600))]));
     fs_write_fails := fun _ => false |}.

Definition listening : SetupWorld :=
  {| files := ∅; events := []; flow := Awaiting |}.

(* ------------------------------------------------------------------ *)
(** ** Normal mode: the user id and the other two tool handlers *)

(** One line of the top tracks:
    [`${i + 1}. ${t.name} — ${t.artists.map((a) => a.name).join(", ")}`]. *)
Definition top_tracks_line (t : value) (i : nat) : Result value :=
  match get_prop t "name" with
  | Throw e => Throw e
  | Ok name =>
      match get_prop t "artists" with
      | Throw e => Throw e
      | Ok artists =>
          match array_map artists (fun a _ => get_prop a "name") with
          | Throw e => Throw e
          | Ok names =>
              Ok (VStr (pretty (Z.of_nat i + 1) +:+ ". "
                          +:+ js_to_string name +:+ " — "
                          +:+ join_values ", " names))
          end
      end
  end.

(** [`v1/me/top/tracks?time_range=${time_range}&limit=${limit}`]. *)
Definition top_tracks_endpoint (args : value) : string :=
  "v1/me/top/tracks?time_range="
    +:+ js_to_string (obj_lookup_value args "time_range")
    +:+ "&limit=" +:+ js_to_string (obj_lookup_value args "limit").

(** [`v1/users/${encodeURIComponent(userId)}/playlists`]. *)
Definition playlists_endpoint (userId : value) : string :=
  "v1/users/" +:+ encodeURIComponent (js_to_string userId) +:+ "/playlists".

(** [`v1/playlists/${encodeURIComponent(playlistId)}/tracks`], as the
    [add_to_playlist] handler builds it. *)
Definition playlist_tracks_endpoint (playlistId : value) : string :=
  "v1/playlists/" +:+ encodeURIComponent (js_to_string playlistId)
    +:+ "/tracks".

(** The body object of the [add_to_playlist] handler:
    [{ uris, ...(typeof position === "number" ? { position } : {}) }]. *)
Definition add_to_playlist_body (uris position : value) : value :=
  VObj (("uris", uris)
          :: (if is_number position then [("position", position)] else [])).

(** The body object of the [create_playlist] handler:
    [{ name, description, public: isPublic }]. *)
Definition create_playlist_body (args : value) : value :=
  VObj [("name", obj_lookup_value args "name");
        ("description", obj_lookup_value args "description");
        ("public", obj_lookup_value args "public")].

(** The result object of the [create_playlist] handler. *)
Definition created_result (name uri : value) : value :=
  VObj [("content",
         VArr [VObj [("type", VStr "text");
                     ("text", VStr ("Created: " +:+ js_to_string name))];
               VObj [("type", VStr "resource_link");
                     ("uri", uri);
                     ("name", name);
                     ("description", VStr "Open in Spotify")]])].

(** [playlist.external_urls?.spotify || playlist.href]. *)
Definition playlist_link (playlist : value) : Result value :=
  match get_prop playlist "external_urls" with
  | Throw e => Throw e
  | Ok external_urls =>
      match get_prop_opt external_urls "spotify" with
      | Throw e => Throw e
      | Ok spotify =>
          if truthy spotify then Ok spotify else get_prop playlist "href"
      end
  end.

Section MoreTools.
Context `{Platform}.

Definition getCurrentUserId : M World value :=
  let* me := spotifyFetch "v1/me" "GET" VUndefined in
  lift (get_prop me "id").

Definition get_top_tracks_handler (args : value) : M World value :=
  let* data := spotifyFetch (top_tracks_endpoint args) "GET" VUndefined in
  let* data_items := lift (get_prop data "items") in
  let* lines := lift (array_map (js_coalesce data_items (VArr []))
                        top_tracks_line) in
  ret (text_result (js_or (VStr (join_values LF lines))
                          (VStr "No tracks found."))).

Definition create_playlist_handler (args : value) : M World value :=
  let* userId := getCurrentUserId in
  let* playlist := spotifyFetch (playlists_endpoint userId) "POST"
                     (create_playlist_body args) in
  let* name := lift (get_prop playlist "name") in
  let* uri := lift (playlist_link playlist) in
  let* name' := lift (get_prop playlist "name") in
  ret (created_result name' uri).

End MoreTools.

(** A track object as the API sends it, and its artists. *)
Definition artist_value (name : string) : value :=
  VObj [("name", VStr name)].

Definition track_value (name : string) (artists : list string) (uri : string)
  : value :=
  VObj [("name", VStr name);
        ("artists", VArr (List.map artist_value artists));
        ("uri", VStr uri)].

Record Track : Type := {
  track_name : string;
  track_artists : list string;
  track_uri : string
}.

(** What the handlers read of a reply.  [is_artist v name]: [v] is an
    object whose [name] is the string [name].  [has_name_and_artists v t]:
    [v] is an object whose [name] and whose [artists], an array of artist
    objects, are those of [t].  [is_track v t]: moreover its [uri] is that
    of [t].  The objects may have any other field. *)
Definition is_artist (v : value) (name : string) : Prop :=
  exists fields : list (string * value),
    v = VObj fields /\ obj_lookup fields "name" = VStr name.

Definition has_name_and_artists (v : value) (t : Track) : Prop :=
  exists (fields : list (string * value)) (artists : list value),
    v = VObj fields
    /\ obj_lookup fields "name" = VStr (track_name t)
    /\ obj_lookup fields "artists" = VArr artists
    /\ Forall2 is_artist artists (track_artists t).

Definition is_track (v : value) (t : Track) : Prop :=
  has_name_and_artists v t
  /\ exists fields : list (string * value),
       v = VObj fields /\ obj_lookup fields "uri" = VStr (track_uri t).

(** A track object with the further fields of a reply of the API. *)
Definition rich_artist (name : string) : value :=
  VObj [("external_urls", VObj []); ("id", VStr "a1"); ("name", VStr name);
        ("type", VStr "artist")].

Definition rich_track (t : Track) : value :=
  VObj [("album", VObj [("name", VStr "LP")]);
        ("artists", VArr (List.map rich_artist (track_artists t)));
        ("duration_ms", VNum (Int 200000));
        ("explicit", VBool false);
        ("id", VStr "t1");
        ("name", VStr (track_name t));
        ("popularity", VNum (Int 50));
        ("type", VStr "track");
        ("uri", VStr (track_uri t))].

(** The text of line [i] (counted from 0) of the search result and of the
    top tracks, for a track with string fields. *)
Definition search_text (i : nat) (t : Track) : string :=
  pretty (Z.of_nat i + 1) +:+ ". " +:+ track_name t +:+ " — "
    +:+ join_with id ", " (track_artists t) +:+ "  [" +:+ track_uri t +:+ "]".

Definition top_text (i : nat) (t : Track) : string :=
  pretty (Z.of_nat i + 1) +:+ ". " +:+ track_name t +:+ " — "
    +:+ join_with id ", " (track_artists t).

(** The lines of a list of tracks, numbered from [i]. *)
Fixpoint render_from (render : nat -> Track -> string) (i : nat)
    (l : list Track) : list string :=
  match l with
  | [] => []
  | t :: r => render i t :: render_from render (S i) r
  end.

(** A platform with the variables [vars] whose [k]-th request gets the
    [k]-th reply of a script ([None], or past the script: the fetch
    rejects). *)
Definition scripted_platform (vars : gmap string string)
    (replies : list (option Response)) : Platform :=
  {| process_env := vars;
     Date_now := fun k => 1000000 + Z.of_nat k;
     fetch_reply := fun log _ =>
       match nth_error replies (List.length log) with
       | Some reply => reply
       | None => None
       end;
     StringToNumber := fun _ => NaN |}.

(* ------------------------------------------------------------------ *)
(** ** Setup mode: what a request adds to the events *)

Definition is_respond (e : Event) : bool :=
  match e with
  | Respond _ _ _ => true
  | _ => false
  end.

Definition is_fetch (e : Event) : bool :=
  match e with
  | Fetch _ => true
  | _ => false
  end.

(** Events that are neither a reply to the browser nor a request to the
    token endpoint. *)
Definition quiet (evs : list Event) : Prop :=
  List.filter is_respond evs = [] /\ List.filter is_fetch evs = [].

(** The [catch] of the block that persists the credentials. *)
Definition persist_failed (e : exn) : M SetupWorld unit :=
  console_log [LVal (VStr "Could not write .env/.gitignore:"); LExn e].

Section Listener.
Context `{SetupPlatform}.

(** The log lines and the reply of a successful exchange, before and after
    the files are written. *)
Definition success_logs (access refresh expires : value) : list Event :=
  [Log [LVal (VStr (LF +:+ "✅ Success! Save these (also writing .env):"))];
   Log [LVal (VStr "SPOTIFY_REFRESH_TOKEN="); LVal refresh];
   Log [LVal (VStr "SPOTIFY_ACCESS_TOKEN ="); LVal access;
        LVal (VStr ("(expires in " +:+ js_to_string expires +:+ "s)"))]].

Definition success_reply : Event :=
  Respond 200 [("Content-Type", "text/html")]
    "<h1>All set!</h1><p>You can close this window.</p>".

End Listener.

(** A setup platform answering the exchange with [reply], on a file system
    where writing fails on the paths [read_only]. *)
Definition setup_with (reply : option Response) (read_only : list string)
  : SetupPlatform :=
  {| setup_env := {[ "SPOTIFY_CLIENT_ID" := "id";
                     "SPOTIFY_CLIENT_SECRET" := "secret" ]};
     random_state := "0123456789abcdef";
     url_search_params := plain_search_params;
     exchange_reply := fun _ => reply;
     fs_write_fails := fun p => existsb (String.eqb p) read_only |}.

(** Setup mode started without credentials. *)
Definition setup_without_credentials : SetupPlatform :=
  {| setup_env := ∅;
     random_state := "0123456789abcdef";
     url_search_params := plain_search_params;
     exchange_reply := fun _ => None;
     fs_write_fails := fun _ => false |}.

(* ------------------------------------------------------------------ *)
(** ** Concrete replies and worlds, to run the further properties *)

Definition grant_fields : list (string * value) :=
  [("access_token", VStr "fresh-token"); ("expires_in", VNum (Int 3600))].

(** A success status with a body that is not JSON. *)
Definition empty_success : Response :=
  {| resp_status := 204; resp_text := Some ""; resp_json := None |}.

Definition static_env : gmap string string :=
  <["SPOTIFY_ACCESS_TOKEN" := "static-token"]> full_env.

Definition demo_tracks : list Track :=
  [{| track_name := "Song"; track_artists := ["A"; "B"];
      track_uri := "spotify:track:1" |};
   {| track_name := "Tune"; track_artists := ["C"];
      track_uri := "spotify:track:2" |}].

Definition demo_search_args : value :=
  VObj [("q", VStr "lofi beats"); ("limit", VNum (Int 10))].

Definition demo_top_args : value :=
  VObj [("time_range", VStr "long_term"); ("limit", VNum (Int 5))].

Definition demo_playlist_args : value :=
  VObj [("name", VStr "Mix"); ("description", VStr "Created via MCP");
        ("public", VBool false)].

Definition demo_me : list (string * value) := [("id", VStr "user 1")].

Definition demo_playlist : list (string * value) :=
  [("name", VStr "Mix");
   ("href", VStr "https://api.spotify.com/v1/playlists/p1");
   ("external_urls",
    VObj [("spotify", VStr "https://open.spotify.com/playlist/p1")])].

Definition good_callback : string :=
  "/callback?code=c&state=0123456789abcdef".

Definition good_params : list (string * string) :=
  [("code", "c"); ("state", "0123456789abcdef")].

Definition exchange_fields : list (string * value) :=
  [("access_token", VStr "AT"); ("refresh_token", VStr "RT");
   ("expires_in", VNum (Int 3600))].

(** A working directory that already has both files. *)
Definition listening_with_files : SetupWorld :=
  {| files := {[ ".env" := "OLD=1"; ".gitignore" := "node_modules" ]};
     events := [];
     flow := Awaiting |}.

Definition static_token_platform : Platform :=
  scripted_platform static_env [].

(** The client id and secret are set, the refresh token is not; a static
    token is provided. *)
Definition partial_env : gmap string string :=
  {[ "SPOTIFY_CLIENT_ID" := "id";
     "SPOTIFY_CLIENT_SECRET" := "secret";
     "SPOTIFY_ACCESS_TOKEN" := "static-token" ]}.

Definition partial_secret_platform : Platform :=
  scripted_platform partial_env [].

Definition tokenless_grant_platform : Platform :=
  scripted_platform full_env [Some (ok_response (VObj []))].

Definition empty_grant_platform : Platform :=
  scripted_platform full_env [Some empty_success].

Definition odd_lifetime_fields : list (string * value) :=
  [("access_token", VStr "fresh-token"); ("expires_in", VStr "soon")].

Definition odd_lifetime_platform : Platform :=
  scripted_platform full_env [Some (ok_response (VObj odd_lifetime_fields))].

Definition empty_api_platform : Platform :=
  scripted_platform ∅ [Some empty_success].

Definition tracks_platform : Platform :=
  scripted_platform ∅
    [Some (ok_response
             (VObj [("tracks",
                     VObj [("items",
                            VArr (List.map rich_track demo_tracks))])]))].

Definition top_platform : Platform :=
  scripted_platform ∅
    [Some (ok_response
             (VObj [("items", VArr (List.map rich_track demo_tracks))]))].

Definition broken_track : list (string * value) := [("name", VStr "Broken")].

Definition malformed_platform : Platform :=
  scripted_platform ∅
    [Some (ok_response
             (VObj [("tracks",
                     VObj [("items",
                            VArr [track_value "Song" ["A"] "spotify:track:1";
                                  VObj broken_track])])]))].

Definition playlist_platform : Platform :=
  scripted_platform ∅
    [Some (ok_response (VObj demo_me)); Some (ok_response (VObj demo_playlist))].

Definition anonymous_platform : Platform :=
  scripted_platform ∅ [Some (ok_response (VObj []))].

(* ================================================================== *)
(** * Theorems *)

(** ** The model runs *)

Example base64_basic_credentials : base64 "id:secret" = "aWQ6c2VjcmV0".
Proof. reflexivity. Qed.

Example encodeURIComponent_query :
  encodeURIComponent "lofi beats tempo:90" = "lofi%20beats%20tempo%3A90".
Proof. reflexivity. Qed.

Example initial_token_absent :
  ACCESS_TOKEN (store (initial_world (H := bare_platform))) = VNull.
Proof. reflexivity. Qed.

Example limit_defaults_to_ten :
  parse_shape search_tracks_schema (VObj [("q", VStr "jazz")])
  = Some (VObj [("q", VStr "jazz"); ("limit", VNum (Int 10))]).
Proof. reflexivity. Qed.

Example limit_is_bounded :
  parse_shape search_tracks_schema
    (VObj [("q", VStr "jazz"); ("limit", VNum (Int 51))]) = None.
Proof. reflexivity. Qed.

Example search_line_format :
  search_line
    (VObj [("name", VStr "Song");
           ("artists", VArr [VObj [("name", VStr "A")];
                             VObj [("name", VStr "B")]]);
           ("uri", VStr "spotify:track:1")]) 0
  = Ok (VStr "1. Song — A, B  [spotify:track:1]").
Proof. reflexivity. Qed.

Example callback_query_read :
  plain_search_params "/callback?code=abc&state=xyz"
  = Some [("code", "abc"); ("state", "xyz")].
Proof. reflexivity. Qed.

(** A good callback: one exchange request, the credentials written to
    [.env], [.gitignore] created, exit code 0. *)
Example good_callback_succeeds :
  let after :=
    listener_step (H := demo_setup)
      (Some "/callback?code=c&state=0123456789abcdef") listening in
  flow after = Exited 0
  /\ List.length (List.filter (fun e => match e with
                                         | Fetch _ => true
                                         | _ => false
                                         end) (events after)) = 1%nat
  /\ files after !! ".gitignore" = Some (".env" +:+ LF)
  /\ files after !! ".env"
     = Some (env_lines (H := demo_setup) (VStr "RT") (VStr "AT")).
Proof. vm_compute. repeat split. Qed.

(** ** The token cache *)

Section TokenCache.
Context `{Platform}.

(** When the cache is not usable: there is no token, or the stored expiry
    is not more than 30 seconds ahead. *)
Lemma cache_usable_false (now : Z) (s : TokenStore) :
  cache_usable (Int now) s = false <->
  truthy (ACCESS_TOKEN s) = false
  \/ ACCESS_TOKEN_EXP s = NaN
  \/ exists e, ACCESS_TOKEN_EXP s = Int e /\ e - now <= 30000.
Proof.
  unfold cache_usable. rewrite andb_false_iff.
  destruct (ACCESS_TOKEN_EXP s) as [e|]; simpl.
  - rewrite Z.ltb_ge. split.
    + intros [Ht|Hle]; [now left|]. right; right. exists e. split; [done|lia].
    + intros [Ht|[Hn|(e' & He & Hle)]]; [now left|discriminate|].
      injection He as <-. right. lia.
  - split; [intros _; right; now left | intros _; now right].
Qed.

Lemma cache_usable_true (now e : Z) (s : TokenStore) :
  truthy (ACCESS_TOKEN s) = true ->
  ACCESS_TOKEN_EXP s = Int e ->
  now + 30000 < e ->
  cache_usable (Int now) s = true.
Proof.
  intros Ht He Hlt. unfold cache_usable. rewrite Ht, He. simpl.
  apply Z.ltb_lt. lia.
Qed.

(** The three ways through [refreshAccessTokenIfNeeded]. *)
Lemma refresh_cached (w : World) :
  cache_usable (Int (Date_now (clock_reads w))) (store w) = true ->
  refreshAccessTokenIfNeeded w = (Ok (ACCESS_TOKEN (store w)), tick w).
Proof.
  intros Hu. unfold refreshAccessTokenIfNeeded, bind, Date_now_read, gets.
  simpl. now rewrite Hu.
Qed.

Lemma refresh_without_secret (w : World) :
  cache_usable (Int (Date_now (clock_reads w))) (store w) = false ->
  refresh_secret_missing = true ->
  refreshAccessTokenIfNeeded w = (Ok (ACCESS_TOKEN (store w)), tick w).
Proof.
  intros Hu Hm. unfold refreshAccessTokenIfNeeded, bind, Date_now_read, gets.
  simpl. now rewrite Hu, Hm.
Qed.

Ltac enter_refresh Hu Hm :=
  unfold refreshAccessTokenIfNeeded, bind, Date_now_read, gets, fetch;
  simpl; rewrite Hu, Hm; simpl;
  fold configured_refresh_request.

Lemma refresh_sends_one_request (w : World) :
  cache_usable (Int (Date_now (clock_reads w))) (store w) = false ->
  refresh_secret_missing = false ->
  net_log (snd (refreshAccessTokenIfNeeded w))
  = (net_log w ++ [configured_refresh_request])%list.
Proof.
  intros Hu Hm. enter_refresh Hu Hm.
  destruct (fetch_reply (net_log w) configured_refresh_request) as [r|]; [|done].
  destruct (resp_ok r); simpl; [|done].
  unfold res_json. destruct (resp_json r) as [data|]; [|done].
  destruct data; reflexivity.
Qed.

Lemma refresh_refused (w : World) (r : Response) :
  cache_usable (Int (Date_now (clock_reads w))) (store w) = false ->
  refresh_secret_missing = false ->
  fetch_reply (net_log w) configured_refresh_request = Some r ->
  resp_ok r = false ->
  refreshAccessTokenIfNeeded w
  = (Throw (JsError ("Spotify token refresh failed: "
                       +:+ pretty (resp_status r) +:+ " " +:+ text_or_empty r)),
     {| store := store w;
        net_log := net_log w ++ [configured_refresh_request];
        clock_reads := S (clock_reads w) |}).
Proof.
  intros Hu Hm Hr Hok. enter_refresh Hu Hm.
  rewrite Hr, Hok. reflexivity.
Qed.

Lemma refresh_granted (w : World) (r : Response)
    (fields : list (string * value)) :
  cache_usable (Int (Date_now (clock_reads w))) (store w) = false ->
  refresh_secret_missing = false ->
  fetch_reply (net_log w) configured_refresh_request = Some r ->
  resp_ok r = true ->
  resp_json r = Some (VObj fields) ->
  refreshAccessTokenIfNeeded w
  = (Ok (obj_lookup fields "access_token"),
     {| store :=
          {| ACCESS_TOKEN := obj_lookup fields "access_token";
             ACCESS_TOKEN_EXP :=
               num_add (Int (Date_now (S (clock_reads w))))
                 (num_mul
                    (to_number (js_coalesce (obj_lookup fields "expires_in")
                                  (VNum (Int 3600))))
                    (Int 1000)) |};
        net_log := net_log w ++ [configured_refresh_request];
        clock_reads := S (S (clock_reads w)) |}).
Proof.
  intros Hu Hm Hr Hok Hj. enter_refresh Hu Hm.
  rewrite Hr, Hok. unfold res_json. rewrite Hj. reflexivity.
Qed.

(** The outcomes of a refresh request that are not a grant. *)
Lemma refresh_fetch_rejected (w : World) :
  cache_usable (Int (Date_now (clock_reads w))) (store w) = false ->
  refresh_secret_missing = false ->
  fetch_reply (net_log w) configured_refresh_request = None ->
  refreshAccessTokenIfNeeded w
  = (Throw FetchRejected,
     {| store := store w;
        net_log := net_log w ++ [configured_refresh_request];
        clock_reads := S (clock_reads w) |}).
Proof.
  intros Hu Hm Hr. enter_refresh Hu Hm. now rewrite Hr.
Qed.

Lemma refresh_json_rejected (w : World) (r : Response) :
  cache_usable (Int (Date_now (clock_reads w))) (store w) = false ->
  refresh_secret_missing = false ->
  fetch_reply (net_log w) configured_refresh_request = Some r ->
  resp_ok r = true ->
  resp_json r = None ->
  refreshAccessTokenIfNeeded w
  = (Throw JsonRejected,
     {| store := store w;
        net_log := net_log w ++ [configured_refresh_request];
        clock_reads := S (clock_reads w) |}).
Proof.
  intros Hu Hm Hr Hok Hj. enter_refresh Hu Hm.
  rewrite Hr, Hok. unfold res_json. now rewrite Hj.
Qed.

Lemma refresh_nullish_body (w : World) (r : Response) (data : value) :
  cache_usable (Int (Date_now (clock_reads w))) (store w) = false ->
  refresh_secret_missing = false ->
  fetch_reply (net_log w) configured_refresh_request = Some r ->
  resp_ok r = true ->
  resp_json r = Some data ->
  nullish data = true ->
  refreshAccessTokenIfNeeded w
  = (Throw TypeError,
     {| store := store w;
        net_log := net_log w ++ [configured_refresh_request];
        clock_reads := S (clock_reads w) |}).
Proof.
  intros Hu Hm Hr Hok Hj Hn. enter_refresh Hu Hm.
  rewrite Hr, Hok. unfold res_json. rewrite Hj.
  destruct data; try discriminate Hn; reflexivity.
Qed.

(** A grant whose body is any value but [null]. *)
Lemma refresh_granted_value (w : World) (r : Response) (data : value) :
  cache_usable (Int (Date_now (clock_reads w))) (store w) = false ->
  refresh_secret_missing = false ->
  fetch_reply (net_log w) configured_refresh_request = Some r ->
  resp_ok r = true ->
  resp_json r = Some data ->
  nullish data = false ->
  refreshAccessTokenIfNeeded w
  = (Ok (obj_lookup_value data "access_token"),
     {| store :=
          {| ACCESS_TOKEN := obj_lookup_value data "access_token";
             ACCESS_TOKEN_EXP :=
               num_add (Int (Date_now (S (clock_reads w))))
                 (num_mul
                    (to_number
                       (js_coalesce (obj_lookup_value data "expires_in")
                          (VNum (Int 3600))))
                    (Int 1000)) |};
        net_log := net_log w ++ [configured_refresh_request];
        clock_reads := S (S (clock_reads w)) |}).
Proof.
  intros Hu Hm Hr Hok Hj Hn. enter_refresh Hu Hm.
  rewrite Hr, Hok. unfold res_json. rewrite Hj.
  destruct data; try discriminate Hn; reflexivity.
Qed.

(** The refresh request, spelled out: a POST to the token endpoint, with
    Basic authentication from the client id and secret and the form
    [grant_type=refresh_token&refresh_token=<token>]. *)
Lemma configured_refresh_request_spelled :
  refresh_secret_missing = false ->
  exists id secret token : string,
    process_env !! "SPOTIFY_CLIENT_ID" = Some id
    /\ process_env !! "SPOTIFY_CLIENT_SECRET" = Some secret
    /\ process_env !! "SPOTIFY_REFRESH_TOKEN" = Some token
    /\ configured_refresh_request
       = {| req_url := "https://accounts.spotify.com/api/token";
            req_method := "POST";
            req_headers :=
              [("Authorization",
                "Basic " +:+ base64 (id +:+ ":" +:+ secret));
               ("Content-Type", "application/x-www-form-urlencoded")];
            req_body := FormBody [("grant_type", "refresh_token");
                                  ("refresh_token", token)] |}.
Proof.
  unfold refresh_secret_missing, configured_refresh_request, refresh_request,
    env.
  intros Hm.
  destruct (process_env !! "SPOTIFY_CLIENT_ID") as [id|]; [|discriminate Hm].
  destruct (process_env !! "SPOTIFY_CLIENT_SECRET") as [secret|];
    [|simpl in Hm; rewrite orb_true_r in Hm; discriminate Hm].
  destruct (process_env !! "SPOTIFY_REFRESH_TOKEN") as [token|];
    [|simpl in Hm; rewrite orb_true_r in Hm; discriminate Hm].
  exists id, secret, token. repeat split; reflexivity.
Qed.

End TokenCache.

Section TokenClaims.
Context `{Platform}.

Lemma secret_missing_of_falsy :
  truthy (env "SPOTIFY_CLIENT_ID" VUndefined) = false
  \/ truthy (env "SPOTIFY_CLIENT_SECRET" VUndefined) = false
  \/ truthy (env "SPOTIFY_REFRESH_TOKEN" VUndefined) = false ->
  refresh_secret_missing = true.
Proof.
  unfold refresh_secret_missing.
  intros [E|[E|E]]; rewrite E; simpl; rewrite ?orb_true_r; reflexivity.
Qed.

(** C1.  When the cache holds a token and the stored expiry instant is more
    than 30 seconds (30000 ms) after the current time, the call returns the
    cached token as it is, sends no request and leaves the token store as
    it was. *)
Theorem cached_token_reused (w : World) (e : Z) :
  truthy (ACCESS_TOKEN (store w)) = true ->
  ACCESS_TOKEN_EXP (store w) = Int e ->
  Date_now (clock_reads w) + 30000 < e ->
  fst (refreshAccessTokenIfNeeded w) = Ok (ACCESS_TOKEN (store w))
  /\ net_log (snd (refreshAccessTokenIfNeeded w)) = net_log w
  /\ store (snd (refreshAccessTokenIfNeeded w)) = store w.
Proof.
  intros Ht He Hlt.
  rewrite refresh_cached by (eapply cache_usable_true; eassumption).
  repeat split.
Qed.

(** C2, as the code has it.  When the cached token is absent or not good
    for more than 30 seconds and the refresh secret is complete, the call
    sends exactly one request: the POST to the token endpoint with Basic
    authentication from the client id and secret and the form
    [grant_type=refresh_token&refresh_token=<token>].  On a success reply
    whose body parses to a JSON value other than [null], the call returns
    the body's [access_token], stores it, and stores as expiry the clock
    reading taken at that moment plus 1000 ms per second of [expires_in]:
    [now + secs * 1000] for a lifetime of [secs] seconds, [now + 3600 * 1000]
    when [expires_in] is absent, in the range of the safe integers.  On a
    success reply whose body does not parse, or is [null], the call throws
    and stores nothing. *)
Theorem stale_token_refreshed (w : World) :
  cache_usable (Int (Date_now (clock_reads w))) (store w) = false ->
  refresh_secret_missing = false ->
  let out := refreshAccessTokenIfNeeded w in
  let now := Date_now (S (clock_reads w)) in
  net_log (snd out) = (net_log w ++ [configured_refresh_request])%list
  /\ (exists id secret token : string,
        process_env !! "SPOTIFY_CLIENT_ID" = Some id
        /\ process_env !! "SPOTIFY_CLIENT_SECRET" = Some secret
        /\ process_env !! "SPOTIFY_REFRESH_TOKEN" = Some token
        /\ configured_refresh_request
           = {| req_url := "https://accounts.spotify.com/api/token";
                req_method := "POST";
                req_headers :=
                  [("Authorization",
                    "Basic " +:+ base64 (id +:+ ":" +:+ secret));
                   ("Content-Type", "application/x-www-form-urlencoded")];
                req_body := FormBody [("grant_type", "refresh_token");
                                      ("refresh_token", token)] |})
  /\ forall r : Response,
       fetch_reply (net_log w) configured_refresh_request = Some r ->
       resp_ok r = true ->
       (forall data : value,
          resp_json r = Some data ->
          nullish data = false ->
          fst out = Ok (obj_lookup_value data "access_token")
          /\ ACCESS_TOKEN (store (snd out))
             = obj_lookup_value data "access_token"
          /\ (forall secs : Z,
                obj_lookup_value data "expires_in" = VNum (Int secs) ->
                safe_integer (secs * 1000) ->
                safe_integer (now + secs * 1000) ->
                ACCESS_TOKEN_EXP (store (snd out)) = Int (now + secs * 1000))
          /\ (obj_lookup_value data "expires_in" = VUndefined ->
              safe_integer (now + 3600 * 1000) ->
              ACCESS_TOKEN_EXP (store (snd out)) = Int (now + 3600 * 1000)))
       /\ (resp_json r = None \/ resp_json r = Some VNull ->
           (exists e : exn, fst out = Throw e)
           /\ store (snd out) = store w).
Proof.
  intros Hu Hm out now. subst out now.
  split; [now apply refresh_sends_one_request|].
  split; [now apply configured_refresh_request_spelled|].
  intros r Hr Hok. split.
  - intros data Hj Hn.
    rewrite (refresh_granted_value w r data Hu Hm Hr Hok Hj Hn). simpl.
    repeat split.
    + intros secs E _ _. now rewrite E.
    + intros E _. now rewrite E.
  - intros [Hj|Hj].
    + rewrite (refresh_json_rejected w r Hu Hm Hr Hok Hj). simpl. eauto.
    + rewrite (refresh_nullish_body w r VNull Hu Hm Hr Hok Hj eq_refl).
      simpl. eauto.
Qed.

(** C3, as the code has it.  When the refresh secret is not complete and
    there is no cached token, [refreshAccessTokenIfNeeded] does not fail: it
    returns the absent token, without any request.  The failure comes from
    its caller: [spotifyFetch] throws the "No Spotify access token" error,
    and no request has been sent. *)
Theorem no_credentials_fails_in_client (w : World)
    (endpoint method : string) (jsonBody : value) :
  truthy (env "SPOTIFY_CLIENT_ID" VUndefined) = false
  \/ truthy (env "SPOTIFY_CLIENT_SECRET" VUndefined) = false
  \/ truthy (env "SPOTIFY_REFRESH_TOKEN" VUndefined) = false ->
  truthy (ACCESS_TOKEN (store w)) = false ->
  refreshAccessTokenIfNeeded w = (Ok (ACCESS_TOKEN (store w)), tick w)
  /\ fst (spotifyFetch endpoint method jsonBody w)
     = Throw (JsError
         "No Spotify access token. Provide SPOTIFY_ACCESS_TOKEN or set refresh env vars.")
  /\ net_log (snd (spotifyFetch endpoint method jsonBody w)) = net_log w.
Proof.
  intros Hs Ht.
  assert (Hr : refreshAccessTokenIfNeeded w
               = (Ok (ACCESS_TOKEN (store w)), tick w)).
  { apply refresh_without_secret.
    - unfold cache_usable. now rewrite Ht.
    - now apply secret_missing_of_falsy. }
  split; [exact Hr|].
  unfold spotifyFetch, bind. rewrite Hr, Ht. simpl. split; reflexivity.
Qed.

(** C4, as the code has it.  Once a token has been obtained and the API
    has replied: a reply with a non-success status makes [spotifyFetch]
    throw the "Spotify API error" error, whose message carries the status
    and the response text; a success reply whose body parses as JSON makes
    it return the parsed body. *)
Theorem api_reply_handled (w w1 : World) (token : value)
    (endpoint method : string) (jsonBody : value) (r : Response) :
  refreshAccessTokenIfNeeded w = (Ok token, w1) ->
  truthy token = true ->
  fetch_reply (net_log w1) (api_request token endpoint method jsonBody)
  = Some r ->
  (resp_ok r = false ->
   fst (spotifyFetch endpoint method jsonBody w)
   = Throw (JsError ("Spotify API error: " +:+ pretty (resp_status r)
                       +:+ " " +:+ text_or_empty r)))
  /\ (resp_ok r = true ->
      forall body : value,
        resp_json r = Some body ->
        fst (spotifyFetch endpoint method jsonBody w) = Ok body).
Proof.
  intros Hr Ht Hf.
  unfold spotifyFetch, bind, fetch. rewrite Hr, Ht. simpl. rewrite Hf.
  split.
  - intros Hok. now rewrite Hok.
  - intros Hok body Hj. rewrite Hok. simpl. unfold res_json. now rewrite Hj.
Qed.

(** C9.  When a refresh request is sent and the authorization server
    replies with a non-success status, the call throws the "Spotify token
    refresh failed" error, and the cached token and its expiry are what
    they were before the call. *)
Theorem refused_refresh_keeps_store (w : World) (r : Response) :
  cache_usable (Int (Date_now (clock_reads w))) (store w) = false ->
  refresh_secret_missing = false ->
  fetch_reply (net_log w) configured_refresh_request = Some r ->
  resp_ok r = false ->
  fst (refreshAccessTokenIfNeeded w)
  = Throw (JsError ("Spotify token refresh failed: "
                      +:+ pretty (resp_status r) +:+ " " +:+ text_or_empty r))
  /\ store (snd (refreshAccessTokenIfNeeded w)) = store w.
Proof.
  intros Hu Hm Hr Hok.
  rewrite (refresh_refused w r Hu Hm Hr Hok). split; reflexivity.
Qed.

(** C10.  When the client id, the client secret or the refresh token is
    missing (or empty), the call sends no request, returns the token
    currently in the cache (possibly none) and leaves the token store as
    it was. *)
Theorem incomplete_secret_returns_cache (w : World) :
  truthy (env "SPOTIFY_CLIENT_ID" VUndefined) = false
  \/ truthy (env "SPOTIFY_CLIENT_SECRET" VUndefined) = false
  \/ truthy (env "SPOTIFY_REFRESH_TOKEN" VUndefined) = false ->
  fst (refreshAccessTokenIfNeeded w) = Ok (ACCESS_TOKEN (store w))
  /\ net_log (snd (refreshAccessTokenIfNeeded w)) = net_log w
  /\ store (snd (refreshAccessTokenIfNeeded w)) = store w.
Proof.
  intros Hs. apply secret_missing_of_falsy in Hs.
  destruct (cache_usable (Int (Date_now (clock_reads w))) (store w)) eqn:Hu.
  - rewrite refresh_cached by assumption. repeat split.
  - rewrite refresh_without_secret by assumption. repeat split.
Qed.

End TokenClaims.

(** ** The tools *)

Section ToolClaims.
Context `{Platform}.

(** C7.  A call of [spotify_add_to_playlist] whose [uris] is the empty
    list is rejected by the validation of the declared schema with the
    invalid-input signal; the handler does not run and the world, with its
    log of requests, is as it was. *)
Theorem add_to_playlist_rejects_empty_uris
    (fields : list (string * value)) (w : World) :
  obj_lookup fields "uris" = VArr [] ->
  callTool spotify_add_to_playlist (VObj fields) w = (Throw InvalidParams, w).
Proof.
  intros Hu. unfold callTool, parse_shape. simpl. rewrite Hu. simpl.
  destruct (obj_lookup fields "playlistId"); reflexivity.
Qed.

(** C8.  A run of the [spotify_search_tracks] handler in which the API
    call returns a body with zero track items ([data.tracks?.items ?? []]
    is the empty array) returns one text block holding the fallback
    sentence, and does not throw. *)
Theorem search_without_results_says_so (args data : value) (w w1 : World) :
  spotifyFetch (search_endpoint args) "GET" VUndefined w = (Ok data, w1) ->
  track_items data = Ok (VArr []) ->
  search_tracks_handler args w
  = (Ok (VObj [("content",
                VArr [VObj [("type", VStr "text");
                            ("text",
                             VStr "No tracks found. Try a different query or filters.")]])]),
     w1).
Proof.
  intros Hf Hi.
  unfold search_tracks_handler, bind, lift. rewrite Hf, Hi. reflexivity.
Qed.

End ToolClaims.

(** ** The setup flow *)

Section SetupClaims.
Context `{SetupPlatform}.

Ltac enter_callback Hfl Hp Hps :=
  unfold listener_step; rewrite Hfl;
  unfold on_request, try_catch, callback_body; simpl; rewrite Hp; simpl;
  unfold bind at 1, lift; rewrite Hps; cbn beta iota zeta.

(** A callback carrying an [error] parameter. *)
Lemma callback_with_error
    (w : SetupWorld) (u : string) (ps : list (string * string)) :
  flow w = Awaiting ->
  String.prefix "/callback" u = true ->
  url_search_params u = Some ps ->
  truthy (search_get ps "error") = true ->
  listener_step (Some u) w
  = {| files := files w;
       events := (events w
                    ++ [Log [LVal (VStr "Spotify error:");
                             LVal (search_get ps "error")];
                        Respond 400 [] "Auth error"])%list;
       flow := Exited 1 |}.
Proof.
  intros Hfl Hp Hps He. enter_callback Hfl Hp Hps. rewrite He.
  cbn. now rewrite <- app_assoc.
Qed.

(** A callback stopped by the test [!code || state !== STATE]. *)
Lemma callback_rejected
    (w : SetupWorld) (u : string) (ps : list (string * string)) :
  flow w = Awaiting ->
  String.prefix "/callback" u = true ->
  url_search_params u = Some ps ->
  truthy (search_get ps "error") = false ->
  negb (truthy (search_get ps "code"))
  || strict_ne_string (search_get ps "state") STATE = true ->
  listener_step (Some u) w
  = {| files := files w;
       events := (events w
                    ++ [Log [LVal (VStr "Missing code or state mismatch")];
                        Respond 400 [] "Bad request"])%list;
       flow := Exited 1 |}.
Proof.
  intros Hfl Hp Hps He Hc. enter_callback Hfl Hp Hps. rewrite He, Hc.
  cbn. now rewrite <- app_assoc.
Qed.

(** A callback whose URL the parser refuses: the [catch] of the handler. *)
Lemma callback_unparsable (w : SetupWorld) (u : string) :
  flow w = Awaiting ->
  String.prefix "/callback" u = true ->
  url_search_params u = None ->
  listener_step (Some u) w
  = {| files := files w;
       events := (events w
                    ++ [Log [LExn TypeError];
                        Respond 500 [] "Internal error"])%list;
       flow := Exited 1 |}.
Proof.
  intros Hfl Hp Hps. enter_callback Hfl Hp Hps.
  cbn. now rewrite <- app_assoc.
Qed.

Lemma strict_ne_string_true (v : value) (s : string) :
  v <> VStr s -> strict_ne_string v s = true.
Proof.
  destruct v as [| | | |t| |]; try reflexivity.
  intros Hne. simpl. apply negb_true_iff, String.eqb_neq. congruence.
Qed.

(** C5.  While the listener awaits the callback, a callback request whose
    [code] is missing (or empty) or whose [state] is not the generated
    [STATE] ends the flow with exit code 1; what it does before is log and
    reply, never a request to the token endpoint, and no file is written. *)
Theorem bad_callback_fails_without_exchange
    (w : SetupWorld) (u : string) (ps : list (string * string)) :
  flow w = Awaiting ->
  String.prefix "/callback" u = true ->
  url_search_params u = Some ps ->
  truthy (search_get ps "code") = false
  \/ search_get ps "state" <> VStr STATE ->
  let after := listener_step (Some u) w in
  flow after = Exited 1
  /\ files after = files w
  /\ exists evs : list Event,
       events after = (events w ++ evs)%list /\ no_fetch evs.
Proof.
  intros Hfl Hp Hps Hbad after. subst after.
  destruct (truthy (search_get ps "error")) eqn:He.
  - rewrite (callback_with_error w u ps Hfl Hp Hps He). simpl.
    repeat split. eexists. split; [reflexivity|].
    intros rq [E|[E|[]]]; discriminate.
  - rewrite (callback_rejected w u ps Hfl Hp Hps He).
    + simpl. repeat split. eexists. split; [reflexivity|].
      intros rq [E|[E|[]]]; discriminate.
    + destruct Hbad as [Hc|Hs]; [now rewrite Hc|].
      rewrite (strict_ne_string_true _ _ Hs). apply orb_true_r.
Qed.

(** C6, as the code has it.  While the listener awaits the callback, a
    request whose URL does not begin with [/callback] (or has no URL) gets
    the 404 reply "Not found" and nothing else happens: no request to the
    token endpoint, no file written, the listener keeps awaiting. *)
Theorem other_url_not_found (w : SetupWorld) (url : option string) :
  flow w = Awaiting ->
  url_startsWith url "/callback" = false ->
  listener_step url w
  = {| files := files w;
       events := (events w ++ [Respond 404 [] "Not found"])%list;
       flow := Awaiting |}.
Proof.
  intros Hfl Hp. unfold listener_step. rewrite Hfl.
  unfold on_request, try_catch, callback_body. rewrite Hp. simpl.
  unfold respond, emit, modify. simpl. now rewrite Hfl.
Qed.

End SetupClaims.

(** ** The claims on concrete runs *)

Lemma cached_token_reused_witness :
  let w := warm_world (H := bare_platform) in
  fst (refreshAccessTokenIfNeeded (H := bare_platform) w)
  = Ok (VStr "cached-token")
  /\ net_log (snd (refreshAccessTokenIfNeeded (H := bare_platform) w)) = []
  /\ store (snd (refreshAccessTokenIfNeeded (H := bare_platform) w)) = store w.
Proof.
  apply (cached_token_reused (H := bare_platform)
           (warm_world (H := bare_platform)) 1060000).
  - reflexivity.
  - reflexivity.
  - simpl. lia.
Defined.

Lemma stale_token_refreshed_witness :
  let w := initial_world (H := granting_platform) in
  let out := refreshAccessTokenIfNeeded (H := granting_platform) w in
  net_log (snd out)
  = [{| req_url := "https://accounts.spotify.com/api/token";
        req_method := "POST";
        req_headers :=
          [("Authorization", "Basic aWQ6c2VjcmV0");
           ("Content-Type", "application/x-www-form-urlencoded")];
        req_body := FormBody [("grant_type", "refresh_token");
                              ("refresh_token", "refresh")] |}]
  /\ fst out = Ok (VStr "fresh-token")
  /\ ACCESS_TOKEN (store (snd out)) = VStr "fresh-token"
  /\ ACCESS_TOKEN_EXP (store (snd out)) = Int (1000001 + 3600 * 1000).
Proof.
  intros w out.
  destruct (stale_token_refreshed (H := granting_platform) w)
    as (Hlog & _ & Hreply).
  - reflexivity.
  - vm_compute. reflexivity.
  - destruct (Hreply
                (ok_response (VObj [("access_token", VStr "fresh-token");
                                    ("expires_in", VNum (Int 3600))])))
      as [Hgrant _].
    + reflexivity.
    + reflexivity.
    + destruct (Hgrant (VObj [("access_token", VStr "fresh-token");
                              ("expires_in", VNum (Int 3600))]))
        as (Hret & Htok & Hsecs & _).
      * reflexivity.
      * reflexivity.
      * split; [exact Hlog|]. split; [exact Hret|]. split; [exact Htok|].
        apply (Hsecs 3600); [reflexivity| |]; unfold safe_integer; simpl; lia.
Defined.

(** C2 as it is worded fails: a success status does not make the call
    store a token.  Here the cache is empty, the secret is complete and the
    reply to the one refresh request is a success whose body is not JSON:
    the call throws and the store stays empty. *)
Lemma stale_refresh_counterexample :
  let w := initial_world (H := empty_grant_platform) in
  let out := refreshAccessTokenIfNeeded (H := empty_grant_platform) w in
  cache_usable (Int (Date_now (Platform := empty_grant_platform) 0)) (store w)
  = false
  /\ refresh_secret_missing (H := empty_grant_platform) = false
  /\ fetch_reply (Platform := empty_grant_platform) []
       (configured_refresh_request (H := empty_grant_platform))
     = Some empty_success
  /\ resp_ok empty_success = true
  /\ fst out = Throw JsonRejected
  /\ ACCESS_TOKEN (store (snd out)) = VNull
  /\ ~ (exists token : value, fst out = Ok token).
Proof.
  vm_compute. repeat split. intros [token E]. discriminate E.
Qed.

(** C3 as it is worded fails: with no refresh secret and no cached token,
    [refreshAccessTokenIfNeeded] returns [null]; it throws nothing. *)
Lemma no_credentials_counterexample :
  let w := initial_world (H := bare_platform) in
  refresh_secret_missing (H := bare_platform) = true
  /\ ACCESS_TOKEN (store w) = VNull
  /\ fst (refreshAccessTokenIfNeeded (H := bare_platform) w) = Ok VNull
  /\ ~ (exists e : exn,
          fst (refreshAccessTokenIfNeeded (H := bare_platform) w) = Throw e).
Proof.
  repeat split. intros [e He]. discriminate He.
Qed.

Lemma no_credentials_fails_in_client_witness :
  let w := initial_world (H := bare_platform) in
  refreshAccessTokenIfNeeded (H := bare_platform) w = (Ok VNull, tick w)
  /\ fst (spotifyFetch (H := bare_platform) "v1/me" "GET" VUndefined w)
     = Throw (JsError
         "No Spotify access token. Provide SPOTIFY_ACCESS_TOKEN or set refresh env vars.")
  /\ net_log (snd (spotifyFetch (H := bare_platform) "v1/me" "GET" VUndefined w))
     = [].
Proof.
  exact (no_credentials_fails_in_client (H := bare_platform)
           (initial_world (H := bare_platform)) "v1/me" "GET" VUndefined
           (or_introl eq_refl) eq_refl).
Defined.

Lemma api_reply_handled_witness :
  fst (spotifyFetch (H := refusing_platform) "v1/me" "GET" VUndefined
         (warm_world (H := refusing_platform)))
  = Throw (JsError "Spotify API error: 401 denied")
  /\ fst (spotifyFetch (H := granting_platform) "v1/me" "GET" VUndefined
            (warm_world (H := granting_platform)))
     = Ok (VObj [("access_token", VStr "fresh-token");
                 ("expires_in", VNum (Int 3600))]).
Proof.
  split.
  - refine (proj1 (api_reply_handled (H := refusing_platform)
                     (warm_world (H := refusing_platform))
                     (tick (warm_world (H := refusing_platform)))
                     (VStr "cached-token")
                     "v1/me" "GET" VUndefined (error_response 401 "denied")
                     _ _ _) _); reflexivity.
  - refine (proj2 (api_reply_handled (H := granting_platform)
                     (warm_world (H := granting_platform))
                     (tick (warm_world (H := granting_platform)))
                     (VStr "cached-token")
                     "v1/me" "GET" VUndefined
                     (ok_response
                        (VObj [("access_token", VStr "fresh-token");
                               ("expires_in", VNum (Int 3600))]))
                     _ _ _) _ _ _); reflexivity.
Defined.

(** C4 as it is worded fails: a success reply does not always make
    [spotifyFetch] return.  Here the token is cached and the API answers 204
    with an empty body, which is not JSON: the call throws. *)
Lemma api_success_counterexample :
  let w := warm_world (H := empty_api_platform) in
  fetch_reply (Platform := empty_api_platform) (net_log w)
    (api_request (VStr "cached-token") "v1/me" "GET" VUndefined)
  = Some empty_success
  /\ resp_ok empty_success = true
  /\ fst (spotifyFetch (H := empty_api_platform) "v1/me" "GET" VUndefined w)
     = Throw JsonRejected
  /\ ~ (exists body : value,
          fst (spotifyFetch (H := empty_api_platform) "v1/me" "GET"
                 VUndefined w) = Ok body).
Proof.
  vm_compute. repeat split. intros [body E]. discriminate E.
Qed.

Lemma bad_callback_fails_without_exchange_witness :
  let after :=
    listener_step (H := demo_setup) (Some "/callback?code=c&state=bad")
      listening in
  flow after = Exited 1
  /\ files after = ∅
  /\ exists evs : list Event,
       events after = ([] ++ evs)%list /\ no_fetch evs.
Proof.
  apply (bad_callback_fails_without_exchange (H := demo_setup) listening
           "/callback?code=c&state=bad" [("code", "c"); ("state", "bad")]).
  - reflexivity.
  - reflexivity.
  - reflexivity.
  - right. discriminate.
Defined.

(** C6 as it is worded fails: [/callbackx] is another path than
    [/callback], yet the request is taken for the callback, answered 400,
    and ends the flow. *)
Lemma callback_prefix_counterexample :
  let after := listener_step (H := demo_setup) (Some "/callbackx") listening in
  request_path "/callbackx" <> "/callback"
  /\ events after
     = [Log [LVal (VStr "Missing code or state mismatch")];
        Respond 400 [] "Bad request"]
  /\ flow after = Exited 1
  /\ flow after <> flow listening.
Proof.
  repeat split; discriminate.
Qed.

Lemma other_url_not_found_witness :
  listener_step (H := demo_setup) (Some "/favicon.ico") listening
  = {| files := ∅;
       events := [Respond 404 [] "Not found"];
       flow := Awaiting |}.
Proof.
  apply (other_url_not_found (H := demo_setup) listening (Some "/favicon.ico"));
    reflexivity.
Defined.

Lemma add_to_playlist_rejects_empty_uris_witness :
  callTool (spotify_add_to_playlist (H := bare_platform))
    (VObj [("playlistId", VStr "p"); ("uris", VArr [])])
    (initial_world (H := bare_platform))
  = (Throw InvalidParams, initial_world (H := bare_platform)).
Proof.
  apply (add_to_playlist_rejects_empty_uris (H := bare_platform)
           [("playlistId", VStr "p"); ("uris", VArr [])]).
  reflexivity.
Defined.

Lemma search_without_results_says_so_witness :
  fst (search_tracks_handler (H := granting_platform)
         (VObj [("q", VStr "lofi beats"); ("limit", VNum (Int 10))])
         (initial_world (H := granting_platform)))
  = Ok (VObj [("content",
               VArr [VObj [("type", VStr "text");
                           ("text",
                            VStr "No tracks found. Try a different query or filters.")]])]).
Proof.
  refine (f_equal fst
            (search_without_results_says_so (H := granting_platform)
               (VObj [("q", VStr "lofi beats"); ("limit", VNum (Int 10))])
               (VObj [("tracks", VObj [("items", VArr [])])])
               (initial_world (H := granting_platform)) _ _ _)).
  - vm_compute. reflexivity.
  - reflexivity.
Defined.

(** The same run through the dispatch, from the raw arguments. *)
Example search_dispatch_without_results :
  fst (callTool (spotify_search_tracks (H := granting_platform))
         (VObj [("q", VStr "lofi beats")])
         (initial_world (H := granting_platform)))
  = Ok (text_result (VStr no_tracks_message)).
Proof. vm_compute. reflexivity. Qed.

Lemma refused_refresh_keeps_store_witness :
  let w := initial_world (H := refusing_platform) in
  fst (refreshAccessTokenIfNeeded (H := refusing_platform) w)
  = Throw (JsError "Spotify token refresh failed: 401 denied")
  /\ store (snd (refreshAccessTokenIfNeeded (H := refusing_platform) w))
     = store w.
Proof.
  apply (refused_refresh_keeps_store (H := refusing_platform)
           (initial_world (H := refusing_platform))
           (error_response 401 "denied")).
  - reflexivity.
  - vm_compute. reflexivity.
  - reflexivity.
  - reflexivity.
Defined.

Lemma incomplete_secret_returns_cache_witness :
  let w := initial_world (H := partial_secret_platform) in
  cache_usable (Int (Date_now (Platform := partial_secret_platform) 0))
    (store w) = false
  /\ process_env (Platform := partial_secret_platform)
       !! "SPOTIFY_REFRESH_TOKEN" = None
  /\ fst (refreshAccessTokenIfNeeded (H := partial_secret_platform) w)
     = Ok (VStr "static-token")
  /\ net_log (snd (refreshAccessTokenIfNeeded (H := partial_secret_platform) w))
     = []
  /\ store (snd (refreshAccessTokenIfNeeded (H := partial_secret_platform) w))
     = store w.
Proof.
  split; [reflexivity|]. split; [reflexivity|].
  apply (incomplete_secret_returns_cache (H := partial_secret_platform)
           (initial_world (H := partial_secret_platform))).
  right. right. reflexivity.
Defined.

(* ================================================================== *)
(** * Further properties of the code *)

(** ** The token cache, further *)

Section TokenCacheMore.
Context `{Platform}.

(** X1.  One call of [refreshAccessTokenIfNeeded] only appends to the log
    of requests, and appends at most one request: there is no retry. *)
Theorem refresh_at_most_one_request (w : World) :
  exists sent : list Request,
    net_log (snd (refreshAccessTokenIfNeeded w)) = (net_log w ++ sent)%list
    /\ (List.length sent <= 1)%nat.
Proof.
  destruct (cache_usable (Int (Date_now (clock_reads w))) (store w)) eqn:Hu.
  - exists []. rewrite refresh_cached by assumption. simpl.
    rewrite app_nil_r. split; [reflexivity|lia].
  - destruct refresh_secret_missing eqn:Hm.
    + exists []. rewrite refresh_without_secret by assumption. simpl.
      rewrite app_nil_r. split; [reflexivity|lia].
    + exists [configured_refresh_request].
      rewrite refresh_sends_one_request by assumption.
      split; [reflexivity|simpl; lia].
Qed.

(** X2.  The token store changes only on a grant: if a call leaves the
    store different from what it was, then the cache was not usable, the
    secret was complete, and the authorization server answered the refresh
    request with a success status and a JSON body other than [null]. *)
Theorem store_changes_only_on_grant (w : World) :
  store (snd (refreshAccessTokenIfNeeded w)) <> store w ->
  cache_usable (Int (Date_now (clock_reads w))) (store w) = false
  /\ refresh_secret_missing = false
  /\ exists (r : Response) (data : value),
       fetch_reply (net_log w) configured_refresh_request = Some r
       /\ resp_ok r = true
       /\ resp_json r = Some data
       /\ nullish data = false.
Proof.
  intros Hne.
  destruct (cache_usable (Int (Date_now (clock_reads w))) (store w)) eqn:Hu.
  { rewrite refresh_cached in Hne by assumption. now contradiction Hne. }
  destruct refresh_secret_missing eqn:Hm.
  { rewrite refresh_without_secret in Hne by assumption.
    now contradiction Hne. }
  split; [reflexivity|]. split; [reflexivity|].
  destruct (fetch_reply (net_log w) configured_refresh_request) as [r|] eqn:Hr.
  2:{ rewrite refresh_fetch_rejected in Hne by assumption.
      now contradiction Hne. }
  destruct (resp_ok r) eqn:Hok.
  2:{ rewrite (refresh_refused w r) in Hne by assumption.
      now contradiction Hne. }
  destruct (resp_json r) as [data|] eqn:Hj.
  2:{ rewrite (refresh_json_rejected w r) in Hne by assumption.
      now contradiction Hne. }
  destruct (nullish data) eqn:Hn.
  { rewrite (refresh_nullish_body w r data) in Hne by assumption.
    now contradiction Hne. }
  exists r, data. repeat split; assumption.
Qed.

(** X3.  A granted token is reused: after a grant with a truthy token and
    a lifetime of [secs] seconds, the next call, made while the clock is
    still more than 30 seconds before [secs] seconds after the grant, returns
    the granted token and sends nothing. *)
Theorem granted_token_reused (w : World) (r : Response)
    (fields : list (string * value)) (secs : Z) :
  cache_usable (Int (Date_now (clock_reads w))) (store w) = false ->
  refresh_secret_missing = false ->
  fetch_reply (net_log w) configured_refresh_request = Some r ->
  resp_ok r = true ->
  resp_json r = Some (VObj fields) ->
  truthy (obj_lookup fields "access_token") = true ->
  to_number (js_coalesce (obj_lookup fields "expires_in") (VNum (Int 3600)))
  = Int secs ->
  Date_now (S (S (clock_reads w))) + 30000
  < Date_now (S (clock_reads w)) + secs * 1000 ->
  let w1 := snd (refreshAccessTokenIfNeeded w) in
  fst (refreshAccessTokenIfNeeded w1) = Ok (obj_lookup fields "access_token")
  /\ net_log (snd (refreshAccessTokenIfNeeded w1)) = net_log w1
  /\ store (snd (refreshAccessTokenIfNeeded w1)) = store w1.
Proof.
  intros Hu Hm Hr Hok Hj Ht Hs Hlt w1. subst w1.
  rewrite (refresh_granted w r fields Hu Hm Hr Hok Hj). simpl.
  rewrite Hs. simpl.
  rewrite refresh_cached.
  - repeat split.
  - simpl. unfold cache_usable. simpl. rewrite Ht. simpl.
    apply Z.ltb_lt. lia.
Qed.

(** X4.  The token of [SPOTIFY_ACCESS_TOKEN] is never trusted when a refresh
    secret is there: the expiry starts at 0, so with a complete secret (and
    a clock not before 1970) the first call sends the refresh request,
    whether or not the variable is set. *)
Theorem first_call_refreshes :
  refresh_secret_missing = false ->
  -30000 <= Date_now 0 ->
  net_log (snd (refreshAccessTokenIfNeeded initial_world))
  = [configured_refresh_request].
Proof.
  intros Hm Hnow.
  rewrite refresh_sends_one_request; [reflexivity| |assumption].
  unfold cache_usable. simpl.
  replace (Date_now 0 <? 0 - 30000) with false; [apply andb_false_r|].
  symmetry. apply Z.ltb_ge. lia.
Qed.

(** X5.  A grant without a usable [access_token] empties the cache: the
    falsy value (for a missing key, [undefined]) replaces the cached token,
    and a [spotifyFetch] in which this happens throws the "No Spotify
    access token" error, having sent the refresh request and nothing to the
    API. *)
Theorem grant_without_token_empties_cache (w : World) (r : Response)
    (fields : list (string * value)) (endpoint method : string)
    (jsonBody : value) :
  cache_usable (Int (Date_now (clock_reads w))) (store w) = false ->
  refresh_secret_missing = false ->
  fetch_reply (net_log w) configured_refresh_request = Some r ->
  resp_ok r = true ->
  resp_json r = Some (VObj fields) ->
  truthy (obj_lookup fields "access_token") = false ->
  ACCESS_TOKEN (store (snd (refreshAccessTokenIfNeeded w)))
  = obj_lookup fields "access_token"
  /\ fst (spotifyFetch endpoint method jsonBody w)
     = Throw (JsError no_token_message)
  /\ net_log (snd (spotifyFetch endpoint method jsonBody w))
     = (net_log w ++ [configured_refresh_request])%list.
Proof.
  intros Hu Hm Hr Hok Hj Ht.
  unfold spotifyFetch, bind.
  rewrite (refresh_granted w r fields Hu Hm Hr Hok Hj). simpl.
  rewrite Ht. simpl. repeat split.
Qed.

(** X6.  A success status is not enough: when the body of the reply does
    not parse, or is [null], the call throws and the cached token and its
    expiry stay what they were. *)
Theorem bad_grant_body_keeps_store (w : World) (r : Response) :
  cache_usable (Int (Date_now (clock_reads w))) (store w) = false ->
  refresh_secret_missing = false ->
  fetch_reply (net_log w) configured_refresh_request = Some r ->
  resp_ok r = true ->
  resp_json r = None \/ resp_json r = Some VNull ->
  (exists e : exn, fst (refreshAccessTokenIfNeeded w) = Throw e)
  /\ store (snd (refreshAccessTokenIfNeeded w)) = store w.
Proof.
  intros Hu Hm Hr Hok [Hj|Hj].
  - rewrite (refresh_json_rejected w r Hu Hm Hr Hok Hj). simpl. eauto.
  - rewrite (refresh_nullish_body w r VNull Hu Hm Hr Hok Hj eq_refl).
    simpl. eauto.
Qed.

(** X7.  A lifetime that is not a number defeats the cache: when
    [Number(expires_in)] is [NaN], the stored expiry is [NaN], and the next
    call sends a refresh request again, whatever the clock says. *)
Theorem unreadable_lifetime_refreshes_again (w : World) (r : Response)
    (fields : list (string * value)) :
  cache_usable (Int (Date_now (clock_reads w))) (store w) = false ->
  refresh_secret_missing = false ->
  fetch_reply (net_log w) configured_refresh_request = Some r ->
  resp_ok r = true ->
  resp_json r = Some (VObj fields) ->
  to_number (js_coalesce (obj_lookup fields "expires_in") (VNum (Int 3600)))
  = NaN ->
  let w1 := snd (refreshAccessTokenIfNeeded w) in
  ACCESS_TOKEN_EXP (store w1) = NaN
  /\ net_log (snd (refreshAccessTokenIfNeeded w1))
     = (net_log w ++ [configured_refresh_request; configured_refresh_request])%list.
Proof.
  intros Hu Hm Hr Hok Hj Hs w1. subst w1.
  rewrite (refresh_granted w r fields Hu Hm Hr Hok Hj). simpl.
  rewrite Hs. simpl. split; [reflexivity|].
  rewrite refresh_sends_one_request; [|unfold cache_usable; simpl;
                                        apply andb_false_r|assumption].
  simpl. now rewrite <- app_assoc.
Qed.

End TokenCacheMore.

(** ** The request client, further *)

Section RequestClientMore.
Context `{Platform}.

(** Whatever the API replies, a [spotifyFetch] that got a token appends
    its one API request to the log and leaves the store alone. *)
Lemma spotifyFetch_world (w w1 : World) (token : value)
    (endpoint method : string) (jsonBody : value) :
  refreshAccessTokenIfNeeded w = (Ok token, w1) ->
  truthy token = true ->
  snd (spotifyFetch endpoint method jsonBody w)
  = {| store := store w1;
       net_log := net_log w1 ++ [api_request token endpoint method jsonBody];
       clock_reads := clock_reads w1 |}.
Proof.
  intros Hr Ht. unfold spotifyFetch, bind, fetch. rewrite Hr, Ht. simpl.
  destruct (fetch_reply _ _) as [r|]; [|reflexivity].
  destruct (resp_ok r); simpl; [|reflexivity].
  unfold res_json. destruct (resp_json r); reflexivity.
Qed.

(** X8.  With a usable cached token, [spotifyFetch] sends exactly one
    request, the API request carrying that token, and the token store stays
    as it was. *)
Theorem cached_token_one_api_request (w : World)
    (endpoint method : string) (jsonBody : value) :
  cache_usable (Int (Date_now (clock_reads w))) (store w) = true ->
  net_log (snd (spotifyFetch endpoint method jsonBody w))
  = (net_log w
       ++ [api_request (ACCESS_TOKEN (store w)) endpoint method jsonBody])%list
  /\ store (snd (spotifyFetch endpoint method jsonBody w)) = store w.
Proof.
  intros Hu.
  rewrite (spotifyFetch_world w (tick w) (ACCESS_TOKEN (store w))).
  - split; reflexivity.
  - now apply refresh_cached.
  - unfold cache_usable in Hu. now apply andb_true_iff in Hu.
Qed.

(** X9.  After a grant, the API request carries the new token, not the
    stale one: the log grows by the refresh request followed by the API
    request with the granted [access_token]. *)
Theorem api_request_uses_granted_token (w : World) (r : Response)
    (fields : list (string * value))
    (endpoint method : string) (jsonBody : value) :
  cache_usable (Int (Date_now (clock_reads w))) (store w) = false ->
  refresh_secret_missing = false ->
  fetch_reply (net_log w) configured_refresh_request = Some r ->
  resp_ok r = true ->
  resp_json r = Some (VObj fields) ->
  truthy (obj_lookup fields "access_token") = true ->
  net_log (snd (spotifyFetch endpoint method jsonBody w))
  = (net_log w
       ++ [configured_refresh_request;
           api_request (obj_lookup fields "access_token")
             endpoint method jsonBody])%list.
Proof.
  intros Hu Hm Hr Hok Hj Ht.
  erewrite spotifyFetch_world;
    [|apply (refresh_granted w r fields Hu Hm Hr Hok Hj)|exact Ht].
  simpl. now rewrite <- app_assoc.
Qed.

(** X10.  A refused refresh stops the call: [spotifyFetch] throws the
    refresh error itself, and the log holds the refresh request only; no
    request goes to the API. *)
Theorem refused_refresh_stops_api_call (w : World) (r : Response)
    (endpoint method : string) (jsonBody : value) :
  cache_usable (Int (Date_now (clock_reads w))) (store w) = false ->
  refresh_secret_missing = false ->
  fetch_reply (net_log w) configured_refresh_request = Some r ->
  resp_ok r = false ->
  fst (spotifyFetch endpoint method jsonBody w)
  = Throw (JsError ("Spotify token refresh failed: "
                      +:+ pretty (resp_status r) +:+ " " +:+ text_or_empty r))
  /\ net_log (snd (spotifyFetch endpoint method jsonBody w))
     = (net_log w ++ [configured_refresh_request])%list.
Proof.
  intros Hu Hm Hr Hok. unfold spotifyFetch, bind.
  rewrite (refresh_refused w r Hu Hm Hr Hok). split; reflexivity.
Qed.

(** X11.  A success reply whose body does not parse as JSON (an empty
    body, for one) makes [spotifyFetch] throw: the rejection of
    [res.json()] goes to the caller. *)
Theorem unparsable_success_body_throws (w w1 : World) (token : value)
    (endpoint method : string) (jsonBody : value) (r : Response) :
  refreshAccessTokenIfNeeded w = (Ok token, w1) ->
  truthy token = true ->
  fetch_reply (net_log w1) (api_request token endpoint method jsonBody)
  = Some r ->
  resp_ok r = true ->
  resp_json r = None ->
  fst (spotifyFetch endpoint method jsonBody w) = Throw JsonRejected.
Proof.
  intros Hr Ht Hf Hok Hj.
  unfold spotifyFetch, bind, fetch. rewrite Hr, Ht. simpl.
  rewrite Hf, Hok. simpl. unfold res_json. now rewrite Hj.
Qed.

(** X12.  One [spotifyFetch] only appends to the log of requests, and at
    most two requests: one refresh and one API call. *)
Theorem spotifyFetch_at_most_two_requests (w : World)
    (endpoint method : string) (jsonBody : value) :
  exists sent : list Request,
    net_log (snd (spotifyFetch endpoint method jsonBody w))
    = (net_log w ++ sent)%list
    /\ (List.length sent <= 2)%nat.
Proof.
  destruct (refresh_at_most_one_request w) as (sent & Hlog & Hlen).
  destruct (refreshAccessTokenIfNeeded w) as [[token|e] w1] eqn:Hr.
  - destruct (truthy token) eqn:Ht.
    + exists (sent ++ [api_request token endpoint method jsonBody])%list.
      rewrite (spotifyFetch_world w w1 token _ _ _ Hr Ht). simpl.
      simpl in Hlog. rewrite Hlog, <- app_assoc. split; [reflexivity|].
      rewrite length_app. simpl. lia.
    + exists sent. unfold spotifyFetch, bind. rewrite Hr, Ht. simpl.
      simpl in Hlog. split; [exact Hlog|lia].
  - exists sent. unfold spotifyFetch, bind. rewrite Hr. simpl.
    simpl in Hlog. split; [exact Hlog|lia].
Qed.

End RequestClientMore.

(** ** The tool handlers, further *)

Section HandlersMore.
Context `{Platform}.

Lemma join_values_strings (sep : string) (l : list string) :
  join_values sep (List.map VStr l) = join_with id sep l.
Proof.
  unfold join_values. induction l as [|x r IH]; [reflexivity|].
  destruct r as [|y r']; [reflexivity|].
  simpl in *. now rewrite IH.
Qed.

Lemma artist_names_read (artists : list value) (names : list string) :
  Forall2 is_artist artists names ->
  forall i : nat,
    map_from (fun a (_ : nat) => get_prop a "name") artists i
    = Ok (List.map VStr names).
Proof.
  induction 1 as [|a n artists names (fields & -> & Hn) _ IH]; intros i;
    [reflexivity|].
  simpl. now rewrite Hn, IH.
Qed.

Lemma search_line_of_track (v : value) (t : Track) (i : nat) :
  is_track v t -> search_line v i = Ok (VStr (search_text i t)).
Proof.
  intros [(fields & artists & -> & Hn & Ha & Hall) (fields' & [= <-] & Hu)].
  unfold search_line, array_map. simpl. rewrite Hn, Ha, Hu.
  rewrite (artist_names_read _ _ Hall), join_values_strings. reflexivity.
Qed.

Lemma top_tracks_line_of_track (v : value) (t : Track) (i : nat) :
  has_name_and_artists v t ->
  top_tracks_line v i = Ok (VStr (top_text i t)).
Proof.
  intros (fields & artists & -> & Hn & Ha & Hall).
  unfold top_tracks_line, array_map. simpl. rewrite Hn, Ha.
  rewrite (artist_names_read _ _ Hall), join_values_strings. reflexivity.
Qed.

Lemma map_from_render (f : value -> nat -> Result value)
    (reads : value -> Track -> Prop) (render : nat -> Track -> string) :
  (forall v t i, reads v t -> f v i = Ok (VStr (render i t))) ->
  forall (items : list value) (tracks : list Track),
    Forall2 reads items tracks ->
    forall i : nat,
      map_from f items i = Ok (List.map VStr (render_from render i tracks)).
Proof.
  intros Hf items tracks.
  induction 1 as [|v t items tracks Hvt _ IH]; intros i; [reflexivity|].
  simpl. now rewrite (Hf v t i Hvt), IH.
Qed.

Lemma append_nonempty (a b : string) : a <> "" -> a +:+ b <> "".
Proof. destruct a; [congruence|discriminate]. Qed.

Lemma numbered_nonempty (i : nat) (rest : string) :
  pretty (Z.of_nat i + 1) +:+ ". " +:+ rest <> "".
Proof.
  destruct (pretty (Z.of_nat i + 1)); discriminate.
Qed.

Lemma join_lines_truthy (x : string) (r : list string) :
  x <> "" -> truthy (VStr (join_with id LF (x :: r))) = true.
Proof.
  intros Hx. simpl. apply negb_true_iff, String.eqb_neq.
  destruct r; [exact Hx|]. now apply append_nonempty.
Qed.

(** X13.  The search result lists the tracks in the order of the reply,
    numbered from 1, one per line, as
    [N. name — artist1, artist2  [uri]], for items that are objects with a
    string [name], a string [uri] and an array [artists] of objects with a
    string [name], whatever other fields they have; with at least one
    track the fallback sentence is not used. *)
Theorem search_lists_tracks_in_order (args data : value)
    (items : list value) (tracks : list Track) (w w1 : World) :
  spotifyFetch (search_endpoint args) "GET" VUndefined w = (Ok data, w1) ->
  track_items data = Ok (VArr items) ->
  Forall2 is_track items tracks ->
  tracks <> [] ->
  search_tracks_handler args w
  = (Ok (text_result
           (VStr (join_with id LF (render_from search_text 0 tracks)))),
     w1).
Proof.
  intros Hf Hi Hall Hne.
  unfold search_tracks_handler, bind, lift. rewrite Hf, Hi.
  unfold array_map.
  rewrite (map_from_render search_line is_track search_text
             search_line_of_track items tracks Hall).
  rewrite join_values_strings. unfold ret, js_or.
  destruct tracks as [|t r]; [congruence|].
  cbn [render_from]. rewrite join_lines_truthy; [reflexivity|].
  apply numbered_nonempty.
Qed.

(** X14.  The top tracks are listed the same way, without the URI:
    [N. name — artist1, artist2], in the order of the reply, for items that
    are objects with a string [name] and an array [artists] of objects with
    a string [name], whatever other fields they have. *)
Theorem top_tracks_listed_in_order (args : value)
    (fields : list (string * value)) (items : list value)
    (tracks : list Track) (w w1 : World) :
  spotifyFetch (top_tracks_endpoint args) "GET" VUndefined w
  = (Ok (VObj fields), w1) ->
  obj_lookup fields "items" = VArr items ->
  Forall2 has_name_and_artists items tracks ->
  tracks <> [] ->
  get_top_tracks_handler args w
  = (Ok (text_result
           (VStr (join_with id LF (render_from top_text 0 tracks)))),
     w1).
Proof.
  intros Hf Hi Hall Hne.
  unfold get_top_tracks_handler, bind, lift. rewrite Hf. simpl. rewrite Hi.
  unfold array_map. simpl.
  rewrite (map_from_render top_tracks_line has_name_and_artists top_text
             top_tracks_line_of_track items tracks Hall).
  rewrite join_values_strings. unfold ret, js_or.
  destruct tracks as [|t r]; [congruence|].
  cbn [render_from]. rewrite join_lines_truthy; [reflexivity|].
  apply numbered_nonempty.
Qed.

(** The rich track objects read as their tracks. *)
Lemma rich_artists_read (names : list string) :
  Forall2 is_artist (List.map rich_artist names) names.
Proof.
  induction names as [|n r IH]; constructor; [|exact IH].
  eexists. split; reflexivity.
Qed.

Lemma rich_track_has_name_and_artists (t : Track) :
  has_name_and_artists (rich_track t) t.
Proof.
  eexists _, _. split; [reflexivity|]. split; [reflexivity|].
  split; [reflexivity|]. apply rich_artists_read.
Qed.

Lemma rich_track_is_track (t : Track) : is_track (rich_track t) t.
Proof.
  split; [apply rich_track_has_name_and_artists|].
  eexists. split; reflexivity.
Qed.

Lemma line_throws_only_TypeError (f : value -> nat -> Result value)
    (l : list value) (t : value) :
  (forall x i e, f x i = Throw e -> e = TypeError) ->
  (forall i, f t i = Throw TypeError) ->
  In t l ->
  forall i, map_from f l i = Throw TypeError.
Proof.
  intros Honly Ht. induction l as [|x r IH]; intros Hin i; [destruct Hin|].
  simpl. destruct (f x i) as [y|e] eqn:Hx.
  - destruct Hin as [->|Hin]; [rewrite Ht in Hx; discriminate|].
    now rewrite IH.
  - now rewrite (Honly x i e Hx).
Qed.

Lemma get_prop_throws (v : value) (k : string) (e : exn) :
  get_prop v k = Throw e -> e = TypeError.
Proof. destruct v; simpl; congruence. Qed.

Lemma array_map_names_throws (v : value) (e : exn) :
  array_map v (fun a (_ : nat) => get_prop a "name") = Throw e -> e = TypeError.
Proof.
  destruct v as [| | | | |l|]; simpl; try congruence.
  generalize 0%nat. induction l as [|x r IH]; intros i; simpl; [congruence|].
  destruct (get_prop x "name") eqn:Hx.
  - destruct (map_from _ r (S i)) eqn:Hr; [congruence|].
    intros [= <-]. now apply (IH (S i)).
  - intros [= <-]. now apply get_prop_throws in Hx.
Qed.

Lemma search_line_throws (t : value) (i : nat) (e : exn) :
  search_line t i = Throw e -> e = TypeError.
Proof.
  unfold search_line.
  destruct (get_prop t "name") eqn:H1; [|intros [= <-]; eapply get_prop_throws; eassumption].
  destruct (get_prop t "artists") eqn:H2; [|intros [= <-]; eapply get_prop_throws; eassumption].
  destruct (array_map _ _) eqn:H3; [|intros [= <-]; eapply array_map_names_throws; eassumption].
  destruct (get_prop t "uri") eqn:H4; [congruence|].
  intros [= <-]. eapply get_prop_throws; eassumption.
Qed.

(** X15.  One malformed track spoils the whole search: if any item of the
    reply is an object whose [artists] is not an array, the handler throws a
    [TypeError] instead of returning the other lines. *)
Theorem search_malformed_track_throws (args data : value)
    (items : list value) (fields : list (string * value)) (w w1 : World) :
  spotifyFetch (search_endpoint args) "GET" VUndefined w = (Ok data, w1) ->
  track_items data = Ok (VArr items) ->
  In (VObj fields) items ->
  (forall l, obj_lookup fields "artists" <> VArr l) ->
  search_tracks_handler args w = (Throw TypeError, w1).
Proof.
  intros Hf Hi Hin Hna.
  unfold search_tracks_handler, bind, lift. rewrite Hf, Hi.
  unfold array_map.
  rewrite (line_throws_only_TypeError search_line items (VObj fields));
    [reflexivity|apply search_line_throws| |exact Hin].
  intros i. unfold search_line. simpl.
  destruct (obj_lookup fields "artists") as [| | | | |l|] eqn:Ha;
    try reflexivity.
  now contradiction (Hna l).
Qed.

(** A [spotifyFetch] with a usable cached token, by the reply. *)
Lemma spotifyFetch_cached_ok (w : World) (endpoint method : string)
    (jsonBody : value) (r : Response) (body : value) :
  cache_usable (Int (Date_now (clock_reads w))) (store w) = true ->
  fetch_reply (net_log w)
    (api_request (ACCESS_TOKEN (store w)) endpoint method jsonBody) = Some r ->
  resp_ok r = true ->
  resp_json r = Some body ->
  spotifyFetch endpoint method jsonBody w
  = (Ok body,
     {| store := store w;
        net_log := net_log w
                     ++ [api_request (ACCESS_TOKEN (store w))
                           endpoint method jsonBody];
        clock_reads := S (clock_reads w) |}).
Proof.
  intros Hu Hf Hok Hj.
  assert (Ht : truthy (ACCESS_TOKEN (store w)) = true).
  { unfold cache_usable in Hu. now apply andb_true_iff in Hu. }
  unfold spotifyFetch, bind, fetch.
  rewrite (refresh_cached w Hu), Ht. simpl. rewrite Hf, Hok. simpl.
  unfold res_json. now rewrite Hj.
Qed.

Lemma spotifyFetch_cached_error (w : World) (endpoint method : string)
    (jsonBody : value) (r : Response) :
  cache_usable (Int (Date_now (clock_reads w))) (store w) = true ->
  fetch_reply (net_log w)
    (api_request (ACCESS_TOKEN (store w)) endpoint method jsonBody) = Some r ->
  resp_ok r = false ->
  spotifyFetch endpoint method jsonBody w
  = (Throw (JsError ("Spotify API error: " +:+ pretty (resp_status r)
                       +:+ " " +:+ text_or_empty r)),
     {| store := store w;
        net_log := net_log w
                     ++ [api_request (ACCESS_TOKEN (store w))
                           endpoint method jsonBody];
        clock_reads := S (clock_reads w) |}).
Proof.
  intros Hu Hf Hok.
  assert (Ht : truthy (ACCESS_TOKEN (store w)) = true).
  { unfold cache_usable in Hu. now apply andb_true_iff in Hu. }
  unfold spotifyFetch, bind, fetch.
  rewrite (refresh_cached w Hu), Ht. simpl. now rewrite Hf, Hok.
Qed.

(** X16.  An error status of the API reaches the caller of the tool: with a
    usable cached token and a non-success reply to the search request, the
    search handler throws the "Spotify API error" error with the status and
    the text of the reply, after that single request. *)
Theorem search_api_error_surfaces (args : value) (r : Response) (w : World) :
  cache_usable (Int (Date_now (clock_reads w))) (store w) = true ->
  fetch_reply (net_log w)
    (api_request (ACCESS_TOKEN (store w)) (search_endpoint args) "GET"
       VUndefined) = Some r ->
  resp_ok r = false ->
  fst (search_tracks_handler args w)
  = Throw (JsError ("Spotify API error: " +:+ pretty (resp_status r)
                      +:+ " " +:+ text_or_empty r))
  /\ net_log (snd (search_tracks_handler args w))
     = (net_log w
          ++ [api_request (ACCESS_TOKEN (store w)) (search_endpoint args)
                "GET" VUndefined])%list.
Proof.
  intros Hu Hf Hok. unfold search_tracks_handler, bind.
  rewrite (spotifyFetch_cached_error w _ _ _ r Hu Hf Hok). split; reflexivity.
Qed.

(** The link of a created playlist: [external_urls.spotify] when there is
    one, [href] otherwise. *)
Lemma playlist_link_of_object (pf : list (string * value)) :
  playlist_link (VObj pf)
  = Ok (match obj_lookup pf "external_urls" with
        | VObj ef => js_or (obj_lookup ef "spotify") (obj_lookup pf "href")
        | _ => obj_lookup pf "href"
        end).
Proof.
  unfold playlist_link, get_prop_opt, js_or. simpl.
  destruct (obj_lookup pf "external_urls") as [| | | | | |ef]; simpl;
    try reflexivity.
  destruct (truthy (obj_lookup ef "spotify")); reflexivity.
Qed.

(** X17.  Creating a playlist takes two API requests in this order: the
    GET of [v1/me], then the POST to the playlists of the user whose id came
    back, with the name, the description and the visibility as the body.
    With a token usable at both moments and two success replies, the result
    is the text "Created: <name>" and a link block whose URI is
    [external_urls.spotify] when the reply has one and [href] otherwise. *)
Theorem create_playlist_two_requests (args : value) (w : World)
    (r1 r2 : Response) (mf pf : list (string * value)) :
  let token := ACCESS_TOKEN (store w) in
  let get_me := api_request token "v1/me" "GET" VUndefined in
  let post := api_request token (playlists_endpoint (obj_lookup mf "id"))
                "POST" (create_playlist_body args) in
  cache_usable (Int (Date_now (clock_reads w))) (store w) = true ->
  cache_usable (Int (Date_now (S (clock_reads w)))) (store w) = true ->
  fetch_reply (net_log w) get_me = Some r1 ->
  resp_ok r1 = true ->
  resp_json r1 = Some (VObj mf) ->
  fetch_reply (net_log w ++ [get_me]) post = Some r2 ->
  resp_ok r2 = true ->
  resp_json r2 = Some (VObj pf) ->
  create_playlist_handler args w
  = (Ok (created_result (obj_lookup pf "name")
           (match obj_lookup pf "external_urls" with
            | VObj ef => js_or (obj_lookup ef "spotify") (obj_lookup pf "href")
            | _ => obj_lookup pf "href"
            end)),
     {| store := store w;
        net_log := net_log w ++ [get_me; post];
        clock_reads := S (S (clock_reads w)) |}).
Proof.
  intros token get_me post Hu1 Hu2 Hf1 Hok1 Hj1 Hf2 Hok2 Hj2.
  subst post get_me token.
  unfold create_playlist_handler, getCurrentUserId, bind, lift.
  rewrite (spotifyFetch_cached_ok w _ _ _ r1 (VObj mf) Hu1 Hf1 Hok1 Hj1).
  simpl.
  rewrite (spotifyFetch_cached_ok _ _ _ _ r2 (VObj pf)); simpl;
    [|exact Hu2|exact Hf2|exact Hok2|exact Hj2].
  rewrite playlist_link_of_object. unfold ret.
  now rewrite <- app_assoc.
Qed.

(** X18.  No playlist is created when the user lookup fails: with a usable
    cached token and a non-success reply to the GET of [v1/me], the handler
    throws the API error, and that GET is the only request: no POST is
    sent. *)
Theorem create_playlist_stops_on_lookup_error (args : value) (w : World)
    (r1 : Response) :
  let get_me := api_request (ACCESS_TOKEN (store w)) "v1/me" "GET" VUndefined in
  cache_usable (Int (Date_now (clock_reads w))) (store w) = true ->
  fetch_reply (net_log w) get_me = Some r1 ->
  resp_ok r1 = false ->
  fst (create_playlist_handler args w)
  = Throw (JsError ("Spotify API error: " +:+ pretty (resp_status r1)
                      +:+ " " +:+ text_or_empty r1))
  /\ net_log (snd (create_playlist_handler args w))
     = (net_log w ++ [get_me])%list.
Proof.
  intros get_me Hu Hf Hok. subst get_me.
  unfold create_playlist_handler, getCurrentUserId, bind.
  rewrite (spotifyFetch_cached_error w _ _ _ r1 Hu Hf Hok). split; reflexivity.
Qed.

(** X19.  A user reply without [id] is not noticed: [getCurrentUserId]
    returns [undefined], and the POST goes to
    [v1/users/undefined/playlists], whatever is answered to it. *)
Theorem create_playlist_without_user_id (args : value) (w : World)
    (r1 : Response) (mf : list (string * value)) :
  let token := ACCESS_TOKEN (store w) in
  let get_me := api_request token "v1/me" "GET" VUndefined in
  cache_usable (Int (Date_now (clock_reads w))) (store w) = true ->
  cache_usable (Int (Date_now (S (clock_reads w)))) (store w) = true ->
  fetch_reply (net_log w) get_me = Some r1 ->
  resp_ok r1 = true ->
  resp_json r1 = Some (VObj mf) ->
  obj_lookup mf "id" = VUndefined ->
  fst (getCurrentUserId w) = Ok VUndefined
  /\ net_log (snd (create_playlist_handler args w))
     = (net_log w
          ++ [get_me;
              api_request token "v1/users/undefined/playlists" "POST"
                (create_playlist_body args)])%list.
Proof.
  intros token get_me Hu1 Hu2 Hf1 Hok1 Hj1 Hid. subst get_me token.
  assert (Ht : truthy (ACCESS_TOKEN (store w)) = true).
  { unfold cache_usable in Hu1. now apply andb_true_iff in Hu1. }
  unfold create_playlist_handler, getCurrentUserId, bind, lift.
  rewrite (spotifyFetch_cached_ok w _ _ _ r1 (VObj mf) Hu1 Hf1 Hok1 Hj1).
  simpl. rewrite Hid. split; [reflexivity|].
  match goal with
  | |- context [spotifyFetch ?ep ?m ?b ?w1] =>
      pose proof (spotifyFetch_world w1 (tick w1) (ACCESS_TOKEN (store w))
                    ep m b
                    (refresh_cached w1 Hu2) Ht) as Hw;
      destruct (spotifyFetch ep m b w1) as [[playlist|e] w2]
  end; simpl in Hw; subst w2.
  - destruct (get_prop playlist "name"); simpl;
      [destruct (playlist_link playlist); simpl|];
      now rewrite <- app_assoc.
  - simpl. now rewrite <- app_assoc.
Qed.

End HandlersMore.

(** ** What reaches the request URL *)

(** The request of the [add_to_playlist] handler, by its endpoint and its
    body. *)
Lemma add_to_playlist_handler_request `{Platform} (args : value) :
  add_to_playlist_handler args
  = (let* _ := spotifyFetch
                 (playlist_tracks_endpoint (obj_lookup_value args "playlistId"))
                 "POST"
                 (add_to_playlist_body (obj_lookup_value args "uris")
                    (obj_lookup_value args "position")) in
     let* n := lift (js_length (obj_lookup_value args "uris")) in
     ret (text_result
            (VStr ("Added " +:+ js_to_string n +:+ " track(s) to playlist "
                     +:+ js_to_string (obj_lookup_value args "playlistId")
                     +:+ ".")))).
Proof. reflexivity. Qed.

Lemma chars_of_append (a b : string) :
  list_ascii_of_string (a +:+ b)
  = (list_ascii_of_string a ++ list_ascii_of_string b)%list.
Proof. induction a as [|c a IH]; simpl; [reflexivity|now rewrite IH]. Qed.

Lemma hex_digit_unreserved (n : N) (c : ascii) :
  In c (list_ascii_of_string (hex_digit n)) -> uri_unreserved c = true.
Proof.
  unfold hex_digit.
  assert (Hlt : (N.to_nat (N.land n 15) < 16)%nat).
  { change 15%N with (N.ones 4). rewrite N.land_ones.
    pose proof (N.mod_lt n (2 ^ 4)%N ltac:(discriminate)). lia. }
  revert Hlt. generalize (N.to_nat (N.land n 15)). intros k Hlt.
  do 16 (destruct k as [|k]; [simpl; intros [<-|[]]; reflexivity|]).
  lia.
Qed.

Lemma encodeURIComponent_chars (s : string) (c : ascii) :
  In c (list_ascii_of_string (encodeURIComponent s)) ->
  uri_unreserved c = true \/ c = "%"%char.
Proof.
  induction s as [|a s IH]; [intros []|].
  cbn [encodeURIComponent].
  rewrite chars_of_append, in_app_iff. intros [Hc|Hc]; [|now apply IH].
  destruct (uri_unreserved a) eqn:Ha.
  - destruct Hc as [<-|[]]. now left.
  - rewrite !chars_of_append, !in_app_iff in Hc.
    destruct Hc as [[<-|[]]|[Hc|Hc]]; [now right| |];
      left; eapply hex_digit_unreserved; eassumption.
Qed.

(** The characters that structure a URL. *)
Lemma separators_are_reserved (c : ascii) :
  In c ["&"; "="; "?"; "#"; "/"; " "; "+"; ":"; "@"]%char ->
  uri_unreserved c = false /\ c <> "%"%char.
Proof.
  simpl. intros Hc.
  repeat (destruct Hc as [<-|Hc]; [split; [reflexivity|discriminate]|]).
  destruct Hc.
Qed.

(** X20.  The text of a query cannot reach beyond its parameter: the
    search URL is the fixed prefix, the limit, [&q=] and an encoded text in
    which none of the characters [& = ? # / + : @] or the space occurs;
    likewise the playlist id and the user id stay inside their path
    segment. *)
Theorem query_text_stays_in_its_parameter (args id : value) :
  exists encoded_q encoded_id : string,
    search_endpoint args
    = "v1/search?type=track&limit="
        +:+ js_to_string (obj_lookup_value args "limit")
        +:+ "&q=" +:+ encoded_q
    /\ playlist_tracks_endpoint id = "v1/playlists/" +:+ encoded_id +:+ "/tracks"
    /\ playlists_endpoint id = "v1/users/" +:+ encoded_id +:+ "/playlists"
    /\ forall c : ascii,
         In c ["&"; "="; "?"; "#"; "/"; " "; "+"; ":"; "@"]%char ->
         ~ In c (list_ascii_of_string encoded_q)
         /\ ~ In c (list_ascii_of_string encoded_id).
Proof.
  exists (encodeURIComponent (js_to_string (obj_lookup_value args "q"))),
         (encodeURIComponent (js_to_string id)).
  repeat split; try reflexivity.
  all: intros Hin; apply encodeURIComponent_chars in Hin;
    destruct (separators_are_reserved c H) as [Hr Hp];
    destruct Hin; congruence.
Qed.

(** ** The declared input of the search tool *)

Section SearchInput.
Context `{Platform}.

(** X21.  A [limit] that is given and is not an integer from 1 to 50 (a
    number below 1 or above 50, [NaN], or anything that is not a number:
    a string, [null], a boolean, an array, an object) is rejected by the
    validation of the declared input before the handler runs: the world,
    with its log of requests, is as it was. *)
Theorem search_limit_out_of_bounds_rejected
    (fields : list (string * value)) (w : World) :
  obj_lookup fields "limit" <> VUndefined ->
  (forall z : Z, obj_lookup fields "limit" = VNum (Int z) -> z < 1 \/ 50 < z) ->
  callTool spotify_search_tracks (VObj fields) w = (Throw InvalidParams, w).
Proof.
  intros Hgiven Hout. unfold callTool, parse_shape. simpl.
  assert (Hp : zod_parse (ZDefault (ZNumber [NInt; NMin 1; NMax 50])
                            (VNum (Int 10))) (obj_lookup fields "limit")
               = None).
  { destruct (obj_lookup fields "limit") as [| | |[z|]| | |] eqn:El;
      simpl; try reflexivity; [now contradiction Hgiven|].
    destruct (Hout z eq_refl) as [Hz|Hz].
    - replace (1 <=? z) with false; [reflexivity|].
      symmetry. apply Z.leb_gt. lia.
    - replace (z <=? 50) with false; [now destruct (1 <=? z)|].
      symmetry. apply Z.leb_gt. lia. }
  simpl in Hp. rewrite Hp.
  destruct (obj_lookup fields "q"); reflexivity.
Qed.

(** X22.  A call without [limit] searches with the limit 10: the handler
    runs on the query and the default, and its request URL reads
    [v1/search?type=track&limit=10&q=<encoded query>]. *)
Theorem search_limit_defaults_to_ten
    (fields : list (string * value)) (q : string) (w : World) :
  obj_lookup fields "q" = VStr q ->
  obj_lookup fields "limit" = VUndefined ->
  callTool spotify_search_tracks (VObj fields) w
  = search_tracks_handler (VObj [("q", VStr q); ("limit", VNum (Int 10))]) w
  /\ search_endpoint (VObj [("q", VStr q); ("limit", VNum (Int 10))])
     = "v1/search?type=track&limit=10&q=" +:+ encodeURIComponent q.
Proof.
  intros Hq Hl. split; [|reflexivity].
  unfold callTool, parse_shape. simpl. now rewrite Hq, Hl.
Qed.

End SearchInput.

(** ** The setup flow, further *)

Section SetupMore.
Context `{SetupPlatform}.

Ltac run_setup :=
  unfold bind, lift, respond, console_log, emit, shutdown,
    process_exit, existsSync, modify, ret, throw, gets;
  cbn beta iota zeta delta [fst snd files events flow].

(** The block that persists the credentials never throws, never ends the
    flow, and only logs. *)
Lemma persist_quiet (lines : string) (w : SetupWorld) :
  exists (w2 : SetupWorld) (logs : list Event),
    try_catch (persist lines) persist_failed w = (Ok tt, w2)
    /\ flow w2 = flow w
    /\ events w2 = (events w ++ logs)%list
    /\ quiet logs.
Proof.
  unfold try_catch, persist, persist_failed, writeFileSync, appendFileSync.
  run_setup.
  destruct (files w !! ".env") as [old|] eqn:He; cbn [negb];
    (destruct (fs_write_fails ".env") eqn:Hwe; run_setup;
     [eexists _, [_]; repeat split; reflexivity|]);
    rewrite lookup_insert_ne by discriminate;
    (destruct (files w !! ".gitignore") as [g|] eqn:Hg; cbn [negb]; run_setup;
     [eexists _, [_]; repeat split; reflexivity|]);
    (destruct (fs_write_fails ".gitignore") eqn:Hwg; run_setup;
     rewrite <- ?app_assoc;
     eexists _, _; repeat split; reflexivity).
Qed.

(** The files after the block, when both files can be written. *)
Lemma persist_files_written (lines : string) (w : SetupWorld) :
  fs_write_fails ".env" = false ->
  fs_write_fails ".gitignore" = false ->
  files (snd (try_catch (persist lines) persist_failed w))
  = let with_env :=
      <[".env" := match files w !! ".env" with
                  | Some old => old +:+ (LF +:+ lines)
                  | None => lines
                  end]> (files w) in
    match files w !! ".gitignore" with
    | Some _ => with_env
    | None => <[".gitignore" := ".env" +:+ LF]> with_env
    end.
Proof.
  intros Hwe Hwg.
  unfold try_catch, persist, persist_failed, writeFileSync, appendFileSync.
  rewrite Hwe, Hwg. run_setup.
  destruct (files w !! ".env") as [old|] eqn:He; cbn [negb]; run_setup;
    rewrite lookup_insert_ne by discriminate;
    destruct (files w !! ".gitignore") as [g|] eqn:Hg; cbn [negb]; run_setup;
    rewrite ?He; reflexivity.
Qed.

(** The files after the block, when [.env] cannot be written. *)
Lemma persist_files_unwritable (lines : string) (w : SetupWorld) :
  fs_write_fails ".env" = true ->
  files (snd (try_catch (persist lines) persist_failed w)) = files w.
Proof.
  intros Hwe.
  unfold try_catch, persist, persist_failed, writeFileSync, appendFileSync.
  rewrite Hwe. run_setup.
  destruct (files w !! ".env"); reflexivity.
Qed.

Ltac enter_callback Hfl Hp Hps :=
  unfold listener_step; rewrite Hfl;
  unfold on_request, callback_body, url_startsWith;
  cbn [default from_option id]; rewrite Hp; cbn [negb];
  unfold try_catch at 1; unfold bind at 1, lift; rewrite Hps;
  cbn beta iota zeta.

Lemma get_prop_of_value (data : value) (k : string) :
  nullish data = false -> get_prop data k = Ok (obj_lookup_value data k).
Proof. destruct data; try discriminate; reflexivity. Qed.

Lemma get_prop_of_nullish (data : value) (k : string) :
  nullish data = true -> get_prop data k = Throw TypeError.
Proof. destruct data; try discriminate; reflexivity. Qed.

Lemma search_get_cases (ps : list (string * string)) (k : string) :
  search_get ps k = VNull \/ exists s : string, search_get ps k = VStr s.
Proof.
  unfold search_get. destruct (List.find _ ps); [right; eauto|now left].
Qed.

(** What passes the test [!code || state !== STATE]. *)
Lemma guard_passed (ps : list (string * string)) :
  negb (truthy (search_get ps "code"))
  || strict_ne_string (search_get ps "state") STATE = false ->
  exists c : string,
    search_get ps "code" = VStr c /\ c <> ""
    /\ search_get ps "state" = VStr STATE.
Proof.
  intros Hg. apply orb_false_iff in Hg. destruct Hg as [Hc Hs].
  apply negb_false_iff in Hc.
  destruct (search_get_cases ps "code") as [E|(c & E)];
    rewrite E in Hc; [discriminate|].
  destruct (search_get_cases ps "state") as [E'|(t & E')];
    rewrite E' in Hs; [discriminate|].
  exists c. split; [exact E|]. split.
  - intros ->. discriminate.
  - simpl in Hs. apply negb_false_iff, String.eqb_eq in Hs. now subst t.
Qed.

Lemma guard_of_match (c : string) :
  c <> "" ->
  negb (truthy (VStr c)) || strict_ne_string (VStr STATE) STATE = false.
Proof.
  intros Hne. simpl. rewrite String.eqb_refl.
  apply String.eqb_neq in Hne. now rewrite Hne.
Qed.

(** The exchange is granted: the credentials are persisted, the browser
    gets the success page, the process exits with 0. *)
Lemma callback_granted (w : SetupWorld) (u : string)
    (ps : list (string * string)) (c : string) (r : Response) (data : value) :
  flow w = Awaiting ->
  String.prefix "/callback" u = true ->
  url_search_params u = Some ps ->
  truthy (search_get ps "error") = false ->
  search_get ps "code" = VStr c ->
  c <> "" ->
  search_get ps "state" = VStr STATE ->
  exchange_reply (exchange_request c) = Some r ->
  resp_ok r = true ->
  resp_json r = Some data ->
  nullish data = false ->
  let access := obj_lookup_value data "access_token" in
  let refresh := obj_lookup_value data "refresh_token" in
  let expires := obj_lookup_value data "expires_in" in
  let w1 := {| files := files w;
               events := events w
                           ++ Fetch (exchange_request c)
                                :: success_logs access refresh expires;
               flow := Awaiting |} in
  let w2 := snd (try_catch (persist (env_lines refresh access))
                   persist_failed w1) in
  listener_step (Some u) w
  = {| files := files w2;
       events := events w2 ++ [success_reply];
       flow := Exited 0 |}.
Proof.
  intros Hfl Hp Hps He Hc Hne Hs Hr Hok Hj Hn access refresh expires w1 w2.
  enter_callback Hfl Hp Hps.
  rewrite He, Hc, Hs, (guard_of_match c Hne).
  unfold setup_fetch, setup_res_json. cbn [js_to_string].
  rewrite Hr. run_setup. rewrite Hok. cbn [negb]. rewrite Hj. run_setup.
  rewrite !(get_prop_of_value data _ Hn). cbn beta iota.
  rewrite <- !app_assoc. cbn [app]. rewrite Hfl.
  match goal with
  | |- context [try_catch (persist ?l) ?h ?w0] =>
      change (try_catch (persist l) h w0)
        with (try_catch (persist (env_lines refresh access)) persist_failed w1)
  end.
  subst w2.
  destruct (persist_quiet (env_lines refresh access) w1)
    as (w2 & logs & Hpersist & _).
  rewrite Hpersist. reflexivity.
Qed.

(** The token endpoint refuses the exchange. *)
Lemma callback_exchange_refused (w : SetupWorld) (u : string)
    (ps : list (string * string)) (c : string) (r : Response) :
  flow w = Awaiting ->
  String.prefix "/callback" u = true ->
  url_search_params u = Some ps ->
  truthy (search_get ps "error") = false ->
  search_get ps "code" = VStr c ->
  c <> "" ->
  search_get ps "state" = VStr STATE ->
  exchange_reply (exchange_request c) = Some r ->
  resp_ok r = false ->
  listener_step (Some u) w
  = {| files := files w;
       events := events w
                   ++ [Fetch (exchange_request c);
                       Log [LVal (VStr "Token exchange failed:");
                            LVal (VNum (Int (resp_status r)));
                            LVal (VStr (text_or_empty r))];
                       Respond 500 [] "Token exchange failed"];
       flow := Exited 1 |}.
Proof.
  intros Hfl Hp Hps He Hc Hne Hs Hr Hok.
  enter_callback Hfl Hp Hps.
  rewrite He, Hc, Hs, (guard_of_match c Hne).
  unfold setup_fetch. cbn [js_to_string].
  rewrite Hr. run_setup. rewrite Hok. cbn [negb]. run_setup.
  now rewrite <- !app_assoc.
Qed.

(** The exchange throws: the fetch rejects, the body does not parse, or
    the body is [null]. *)
Lemma callback_exchange_thrown (w : SetupWorld) (u : string)
    (ps : list (string * string)) (c : string) (e : exn) :
  flow w = Awaiting ->
  String.prefix "/callback" u = true ->
  url_search_params u = Some ps ->
  truthy (search_get ps "error") = false ->
  search_get ps "code" = VStr c ->
  c <> "" ->
  search_get ps "state" = VStr STATE ->
  (exchange_reply (exchange_request c) = None /\ e = FetchRejected)
  \/ (exists r, exchange_reply (exchange_request c) = Some r
               /\ resp_ok r = true /\ resp_json r = None /\ e = JsonRejected)
  \/ (exists r data, exchange_reply (exchange_request c) = Some r
               /\ resp_ok r = true /\ resp_json r = Some data
               /\ nullish data = true /\ e = TypeError) ->
  listener_step (Some u) w
  = {| files := files w;
       events := events w
                   ++ [Fetch (exchange_request c);
                       Log [LExn e];
                       Respond 500 [] "Internal error"];
       flow := Exited 1 |}.
Proof.
  intros Hfl Hp Hps He Hc Hne Hs Hcase.
  enter_callback Hfl Hp Hps.
  rewrite He, Hc, Hs, (guard_of_match c Hne).
  unfold setup_fetch, setup_res_json. cbn [js_to_string].
  destruct Hcase as [(Hr & ->)|[(r & Hr & Hok & Hj & ->)
                               |(r & data & Hr & Hok & Hj & Hn & ->)]];
    rewrite Hr; run_setup.
  - now rewrite <- !app_assoc.
  - rewrite Hok. cbn [negb]. rewrite Hj. run_setup.
    now rewrite <- !app_assoc.
  - rewrite Hok. cbn [negb]. rewrite Hj. run_setup.
    rewrite (get_prop_of_nullish data _ Hn).
    cbn beta iota delta [fst snd files events flow].
    now rewrite <- !app_assoc.
Qed.

(** Every way through one request, while the listener awaits the callback:
    not found; a failure that ends the flow with 1 and writes no file; or
    the granted exchange. *)
Lemma listener_step_cases (w : SetupWorld) (url : option string) :
  flow w = Awaiting ->
  (url_startsWith url "/callback" = false
   /\ listener_step url w
      = {| files := files w;
           events := events w ++ [Respond 404 [] "Not found"];
           flow := Awaiting |})
  \/ (exists (u : string) (evs : list Event),
        url = Some u
        /\ String.prefix "/callback" u = true
        /\ listener_step url w
           = {| files := files w; events := events w ++ evs;
                flow := Exited 1 |}
        /\ List.length (List.filter is_respond evs) = 1%nat
        /\ (List.length (List.filter is_fetch evs) <= 1)%nat)
  \/ (exists (u : string) (ps : list (string * string)) (c : string)
             (r : Response) (data : value),
        url = Some u
        /\ String.prefix "/callback" u = true
        /\ url_search_params u = Some ps
        /\ truthy (search_get ps "error") = false
        /\ search_get ps "code" = VStr c
        /\ c <> ""
        /\ search_get ps "state" = VStr STATE
        /\ exchange_reply (exchange_request c) = Some r
        /\ resp_ok r = true
        /\ resp_json r = Some data
        /\ nullish data = false).
Proof.
  intros Hfl.
  destruct (url_startsWith url "/callback") eqn:Hp.
  2:{ left. split; [reflexivity|].
      unfold listener_step. rewrite Hfl.
      unfold on_request, try_catch, callback_body. rewrite Hp.
      cbn [negb]. run_setup. now rewrite Hfl. }
  right.
  destruct url as [u|]; [|discriminate Hp]. simpl in Hp.
  destruct (url_search_params u) as [ps|] eqn:Hps.
  2:{ left. eexists u, _. split; [reflexivity|]. split; [exact Hp|].
      split; [apply (callback_unparsable w u Hfl Hp Hps)|].
      split; [reflexivity|simpl; lia]. }
  destruct (truthy (search_get ps "error")) eqn:He.
  { left. eexists u, _. split; [reflexivity|]. split; [exact Hp|].
    split; [apply (callback_with_error w u ps Hfl Hp Hps He)|].
    split; [reflexivity|simpl; lia]. }
  destruct (negb (truthy (search_get ps "code"))
            || strict_ne_string (search_get ps "state") STATE) eqn:Hg.
  { left. eexists u, _. split; [reflexivity|]. split; [exact Hp|].
    split; [apply (callback_rejected w u ps Hfl Hp Hps He Hg)|].
    split; [reflexivity|simpl; lia]. }
  destruct (guard_passed ps Hg) as (c & Hc & Hne & Hs).
  destruct (exchange_reply (exchange_request c)) as [r|] eqn:Hr.
  2:{ left. eexists u, _. split; [reflexivity|]. split; [exact Hp|].
      split; [apply (callback_exchange_thrown w u ps c FetchRejected
                       Hfl Hp Hps He Hc Hne Hs); now left|].
      split; [reflexivity|simpl; lia]. }
  destruct (resp_ok r) eqn:Hok.
  2:{ left. eexists u, _. split; [reflexivity|]. split; [exact Hp|].
      split; [apply (callback_exchange_refused w u ps c r
                       Hfl Hp Hps He Hc Hne Hs Hr Hok)|].
      split; [reflexivity|simpl; lia]. }
  destruct (resp_json r) as [data|] eqn:Hj.
  2:{ left. eexists u, _. split; [reflexivity|]. split; [exact Hp|].
      split; [apply (callback_exchange_thrown w u ps c JsonRejected
                       Hfl Hp Hps He Hc Hne Hs); right; left; eauto|].
      split; [reflexivity|simpl; lia]. }
  destruct (nullish data) eqn:Hn.
  { left. eexists u, _. split; [reflexivity|]. split; [exact Hp|].
    split; [apply (callback_exchange_thrown w u ps c TypeError
                     Hfl Hp Hps He Hc Hne Hs); right; right; eauto 10|].
    split; [reflexivity|simpl; lia]. }
  right. exists u, ps, c, r, data. repeat split; assumption.
Qed.

(** X23.  Every request handled while the listener awaits the callback
    gets exactly one reply, and causes at most one request to the token
    endpoint; the events already recorded stay. *)
Theorem one_reply_per_request (w : SetupWorld) (url : option string) :
  flow w = Awaiting ->
  exists evs : list Event,
    events (listener_step url w) = (events w ++ evs)%list
    /\ List.length (List.filter is_respond evs) = 1%nat
    /\ (List.length (List.filter is_fetch evs) <= 1)%nat.
Proof.
  intros Hfl.
  destruct (listener_step_cases w url Hfl)
    as [(_ & ->)|[(u & evs & _ & _ & -> & Hr & Hf)
                 |(u & ps & c & r & data & -> & Hp & Hps & He & Hc & Hne
                   & Hs & Hr & Hok & Hj & Hn)]].
  - eexists. split; [reflexivity|]. split; [reflexivity|simpl; lia].
  - exists evs. repeat split; assumption.
  - rewrite (callback_granted w u ps c r data
               Hfl Hp Hps He Hc Hne Hs Hr Hok Hj Hn).
    cbn zeta.
    match goal with
    | |- context [try_catch (persist ?l) persist_failed ?w1] =>
        destruct (persist_quiet l w1) as (w2 & logs & Hpersist & _ & Hev & Hq)
    end.
    rewrite Hpersist. cbn [snd events]. rewrite Hev. cbn [events].
    destruct Hq as [Hqr Hqf].
    exists ((Fetch (exchange_request c)
               :: success_logs (obj_lookup_value data "access_token")
                    (obj_lookup_value data "refresh_token")
                    (obj_lookup_value data "expires_in"))
            ++ logs ++ [success_reply])%list.
    split; [now rewrite <- !app_assoc|].
    rewrite !List.filter_app, Hqr, Hqf. split; reflexivity.
Qed.

(** X24.  A request whose URL begins with [/callback] always ends the
    flow, whatever it carries and whatever the token endpoint and the file
    system do; the exit code is 0 or 1. *)
Theorem callback_always_ends_flow (w : SetupWorld) (u : string) :
  flow w = Awaiting ->
  String.prefix "/callback" u = true ->
  flow (listener_step (Some u) w) = Exited 0
  \/ flow (listener_step (Some u) w) = Exited 1.
Proof.
  intros Hfl Hp.
  destruct (listener_step_cases w (Some u) Hfl)
    as [(Hno & _)|[(u' & evs & _ & _ & -> & _)
                  |(u' & ps & c & r & data & [= <-] & _ & Hps & He & Hc & Hne
                    & Hs & Hr & Hok & Hj & Hn)]].
  - simpl in Hno. congruence.
  - now right.
  - left.
    now rewrite (callback_granted w u ps c r data
                   Hfl Hp Hps He Hc Hne Hs Hr Hok Hj Hn).
Qed.

(** X25.  Success needs the matching state: if a request ends the flow
    with exit code 0, or changes any file, then it was a callback without
    [error], with a non-empty [code], with [state] equal to the generated
    [STATE], and the token endpoint granted the exchange of that code. *)
Theorem success_needs_matching_state (w : SetupWorld) (url : option string) :
  flow w = Awaiting ->
  flow (listener_step url w) = Exited 0
  \/ files (listener_step url w) <> files w ->
  exists (u : string) (ps : list (string * string)) (c : string)
         (r : Response),
    url = Some u
    /\ url_search_params u = Some ps
    /\ truthy (search_get ps "error") = false
    /\ search_get ps "state" = VStr STATE
    /\ search_get ps "code" = VStr c
    /\ c <> ""
    /\ exchange_reply (exchange_request c) = Some r
    /\ resp_ok r = true.
Proof.
  intros Hfl Hsucc.
  destruct (listener_step_cases w url Hfl)
    as [(_ & E)|[(u & evs & _ & _ & E & _)
                |(u & ps & c & r & data & -> & Hp & Hps & He & Hc & Hne
                  & Hs & Hr & Hok & Hj & Hn)]].
  - rewrite E in Hsucc. simpl in Hsucc.
    destruct Hsucc as [Hx|Hx]; [discriminate|now contradiction Hx].
  - rewrite E in Hsucc. simpl in Hsucc.
    destruct Hsucc as [Hx|Hx]; [discriminate|now contradiction Hx].
  - exists u, ps, c, r. repeat split; assumption.
Qed.

(** X26.  A granted exchange on a writable directory: the process exits
    with 0; [.env] holds the credential lines, after what it held before if
    it existed; [.gitignore] is created with [.env] in it if it did not
    exist and is left as it is if it did; no other file changes. *)
Theorem granted_exchange_persists (w : SetupWorld) (u : string)
    (ps : list (string * string)) (c : string) (r : Response)
    (fields : list (string * value)) :
  flow w = Awaiting ->
  String.prefix "/callback" u = true ->
  url_search_params u = Some ps ->
  truthy (search_get ps "error") = false ->
  search_get ps "code" = VStr c ->
  c <> "" ->
  search_get ps "state" = VStr STATE ->
  exchange_reply (exchange_request c) = Some r ->
  resp_ok r = true ->
  resp_json r = Some (VObj fields) ->
  fs_write_fails ".env" = false ->
  fs_write_fails ".gitignore" = false ->
  let after := listener_step (Some u) w in
  let lines := env_lines (obj_lookup fields "refresh_token")
                 (obj_lookup fields "access_token") in
  flow after = Exited 0
  /\ files after !! ".env"
     = Some (match files w !! ".env" with
             | Some old => old +:+ LF +:+ lines
             | None => lines
             end)
  /\ files after !! ".gitignore"
     = Some (match files w !! ".gitignore" with
             | Some old => old
             | None => ".env" +:+ LF
             end)
  /\ forall p : string,
       p <> ".env" -> p <> ".gitignore" -> files after !! p = files w !! p.
Proof.
  intros Hfl Hp Hps He Hc Hne Hs Hr Hok Hj Hwe Hwg after lines.
  subst after lines.
  rewrite (callback_granted w u ps c r (VObj fields)
             Hfl Hp Hps He Hc Hne Hs Hr Hok Hj eq_refl).
  cbn zeta. cbn [flow files obj_lookup_value].
  rewrite (persist_files_written _ _ Hwe Hwg). cbn zeta. cbn [files].
  split; [reflexivity|].
  destruct (files w !! ".gitignore") as [g|] eqn:Hg.
  - split; [apply lookup_insert_eq|].
    split; [rewrite lookup_insert_ne by discriminate; exact Hg|].
    intros p Hpe _. now rewrite lookup_insert_ne by congruence.
  - split; [rewrite lookup_insert_ne by discriminate; apply lookup_insert_eq|].
    split; [apply lookup_insert_eq|].
    intros p Hpe Hpg. now rewrite !lookup_insert_ne by congruence.
Qed.

(** X27.  A directory where [.env] cannot be written does not make setup
    fail: the process still exits with 0 and the browser still gets the
    success page, yet no file has changed; [.gitignore] is not created
    either. *)
Theorem unwritable_env_still_exits_0 (w : SetupWorld) (u : string)
    (ps : list (string * string)) (c : string) (r : Response)
    (fields : list (string * value)) :
  flow w = Awaiting ->
  String.prefix "/callback" u = true ->
  url_search_params u = Some ps ->
  truthy (search_get ps "error") = false ->
  search_get ps "code" = VStr c ->
  c <> "" ->
  search_get ps "state" = VStr STATE ->
  exchange_reply (exchange_request c) = Some r ->
  resp_ok r = true ->
  resp_json r = Some (VObj fields) ->
  fs_write_fails ".env" = true ->
  let after := listener_step (Some u) w in
  flow after = Exited 0
  /\ files after = files w
  /\ In success_reply (events after).
Proof.
  intros Hfl Hp Hps He Hc Hne Hs Hr Hok Hj Hwe after. subst after.
  rewrite (callback_granted w u ps c r (VObj fields)
             Hfl Hp Hps He Hc Hne Hs Hr Hok Hj eq_refl).
  cbn zeta. cbn [flow files events].
  rewrite (persist_files_unwritable _ _ Hwe). cbn [files].
  split; [reflexivity|]. split; [reflexivity|].
  apply in_or_app. right. now left.
Qed.

(** X28.  A refused exchange: the process exits with 1 after one request to
    the token endpoint and the reply 500 "Token exchange failed"; no file
    is written. *)
Theorem refused_exchange_exits_1 (w : SetupWorld) (u : string)
    (ps : list (string * string)) (c : string) (r : Response) :
  flow w = Awaiting ->
  String.prefix "/callback" u = true ->
  url_search_params u = Some ps ->
  truthy (search_get ps "error") = false ->
  search_get ps "code" = VStr c ->
  c <> "" ->
  search_get ps "state" = VStr STATE ->
  exchange_reply (exchange_request c) = Some r ->
  resp_ok r = false ->
  let after := listener_step (Some u) w in
  flow after = Exited 1
  /\ files after = files w
  /\ List.filter is_fetch (events after)
     = (List.filter is_fetch (events w) ++ [Fetch (exchange_request c)])%list
  /\ In (Respond 500 [] "Token exchange failed") (events after).
Proof.
  intros Hfl Hp Hps He Hc Hne Hs Hr Hok after. subst after.
  rewrite (callback_exchange_refused w u ps c r
             Hfl Hp Hps He Hc Hne Hs Hr Hok).
  cbn [flow files events]. repeat split.
  - now rewrite List.filter_app.
  - apply in_or_app. right. simpl. tauto.
Qed.

End SetupMore.

(** ** The further properties on concrete runs *)

Lemma store_changes_only_on_grant_witness :
  exists (r : Response) (data : value),
    fetch_reply (Platform := granting_platform) []
      (configured_refresh_request (H := granting_platform)) = Some r
    /\ resp_ok r = true
    /\ resp_json r = Some data
    /\ nullish data = false.
Proof.
  refine (proj2 (proj2 (store_changes_only_on_grant (H := granting_platform)
                          (initial_world (H := granting_platform)) _))).
  intros E. vm_compute in E. discriminate E.
Defined.

Lemma granted_token_reused_witness :
  let w1 := snd (refreshAccessTokenIfNeeded (H := granting_platform)
                   (initial_world (H := granting_platform))) in
  fst (refreshAccessTokenIfNeeded (H := granting_platform) w1)
  = Ok (VStr "fresh-token")
  /\ net_log (snd (refreshAccessTokenIfNeeded (H := granting_platform) w1))
     = net_log w1
  /\ store (snd (refreshAccessTokenIfNeeded (H := granting_platform) w1))
     = store w1.
Proof.
  refine (granted_token_reused (H := granting_platform)
            (initial_world (H := granting_platform))
            (ok_response (VObj grant_fields)) grant_fields 3600
            _ _ _ _ _ _ _ _).
  - reflexivity.
  - vm_compute. reflexivity.
  - reflexivity.
  - reflexivity.
  - reflexivity.
  - reflexivity.
  - reflexivity.
  - simpl. lia.
Defined.

Lemma first_call_refreshes_witness :
  ACCESS_TOKEN (store (initial_world (H := static_token_platform)))
  = VStr "static-token"
  /\ net_log (snd (refreshAccessTokenIfNeeded (H := static_token_platform)
                     (initial_world (H := static_token_platform))))
     = [configured_refresh_request (H := static_token_platform)].
Proof.
  split; [vm_compute; reflexivity|].
  refine (first_call_refreshes (H := static_token_platform) _ _).
  - vm_compute. reflexivity.
  - simpl. lia.
Defined.

Lemma grant_without_token_empties_cache_witness :
  let w := initial_world (H := tokenless_grant_platform) in
  ACCESS_TOKEN
    (store (snd (refreshAccessTokenIfNeeded (H := tokenless_grant_platform) w)))
  = VUndefined
  /\ fst (spotifyFetch (H := tokenless_grant_platform) "v1/me" "GET"
            VUndefined w)
     = Throw (JsError no_token_message)
  /\ net_log (snd (spotifyFetch (H := tokenless_grant_platform) "v1/me" "GET"
                     VUndefined w))
     = [configured_refresh_request (H := tokenless_grant_platform)].
Proof.
  refine (grant_without_token_empties_cache (H := tokenless_grant_platform)
            (initial_world (H := tokenless_grant_platform))
            (ok_response (VObj [])) [] "v1/me" "GET" VUndefined
            _ _ _ _ _ _).
  - reflexivity.
  - vm_compute. reflexivity.
  - reflexivity.
  - reflexivity.
  - reflexivity.
  - reflexivity.
Defined.

Lemma bad_grant_body_keeps_store_witness :
  let w := initial_world (H := empty_grant_platform) in
  (exists e : exn,
     fst (refreshAccessTokenIfNeeded (H := empty_grant_platform) w) = Throw e)
  /\ store (snd (refreshAccessTokenIfNeeded (H := empty_grant_platform) w))
     = store w.
Proof.
  refine (bad_grant_body_keeps_store (H := empty_grant_platform)
            (initial_world (H := empty_grant_platform)) empty_success
            _ _ _ _ _).
  - reflexivity.
  - vm_compute. reflexivity.
  - reflexivity.
  - reflexivity.
  - left. reflexivity.
Defined.

Lemma unreadable_lifetime_refreshes_again_witness :
  let w := initial_world (H := odd_lifetime_platform) in
  let w1 := snd (refreshAccessTokenIfNeeded (H := odd_lifetime_platform) w) in
  ACCESS_TOKEN_EXP (store w1) = NaN
  /\ net_log (snd (refreshAccessTokenIfNeeded (H := odd_lifetime_platform) w1))
     = [configured_refresh_request (H := odd_lifetime_platform);
        configured_refresh_request (H := odd_lifetime_platform)].
Proof.
  refine (unreadable_lifetime_refreshes_again (H := odd_lifetime_platform)
            (initial_world (H := odd_lifetime_platform))
            (ok_response (VObj odd_lifetime_fields)) odd_lifetime_fields
            _ _ _ _ _ _).
  - reflexivity.
  - vm_compute. reflexivity.
  - reflexivity.
  - reflexivity.
  - reflexivity.
  - reflexivity.
Defined.

Lemma cached_token_one_api_request_witness :
  let w := warm_world (H := bare_platform) in
  net_log (snd (spotifyFetch (H := bare_platform) "v1/me" "GET" VUndefined w))
  = [api_request (VStr "cached-token") "v1/me" "GET" VUndefined]
  /\ store (snd (spotifyFetch (H := bare_platform) "v1/me" "GET" VUndefined w))
     = store w.
Proof.
  refine (cached_token_one_api_request (H := bare_platform)
            (warm_world (H := bare_platform)) "v1/me" "GET" VUndefined _).
  reflexivity.
Defined.

Lemma api_request_uses_granted_token_witness :
  net_log (snd (spotifyFetch (H := granting_platform) "v1/me" "GET" VUndefined
                  (initial_world (H := granting_platform))))
  = [configured_refresh_request (H := granting_platform);
     api_request (VStr "fresh-token") "v1/me" "GET" VUndefined].
Proof.
  refine (api_request_uses_granted_token (H := granting_platform)
            (initial_world (H := granting_platform))
            (ok_response (VObj grant_fields)) grant_fields
            "v1/me" "GET" VUndefined _ _ _ _ _ _).
  - reflexivity.
  - vm_compute. reflexivity.
  - reflexivity.
  - reflexivity.
  - reflexivity.
  - reflexivity.
Defined.

Lemma refused_refresh_stops_api_call_witness :
  let w := initial_world (H := refusing_platform) in
  fst (spotifyFetch (H := refusing_platform) "v1/me" "GET" VUndefined w)
  = Throw (JsError "Spotify token refresh failed: 401 denied")
  /\ net_log (snd (spotifyFetch (H := refusing_platform) "v1/me" "GET"
                     VUndefined w))
     = [configured_refresh_request (H := refusing_platform)].
Proof.
  refine (refused_refresh_stops_api_call (H := refusing_platform)
            (initial_world (H := refusing_platform))
            (error_response 401 "denied") "v1/me" "GET" VUndefined _ _ _ _).
  - reflexivity.
  - vm_compute. reflexivity.
  - reflexivity.
  - reflexivity.
Defined.

Lemma unparsable_success_body_throws_witness :
  fst (spotifyFetch (H := empty_api_platform) "v1/me" "GET" VUndefined
         (warm_world (H := empty_api_platform)))
  = Throw JsonRejected.
Proof.
  refine (unparsable_success_body_throws (H := empty_api_platform)
            (warm_world (H := empty_api_platform))
            (tick (warm_world (H := empty_api_platform)))
            (VStr "cached-token") "v1/me" "GET" VUndefined empty_success
            _ _ _ _ _); reflexivity.
Defined.

Lemma search_lists_tracks_in_order_witness :
  fst (search_tracks_handler (H := tracks_platform) demo_search_args
         (warm_world (H := tracks_platform)))
  = Ok (text_result
          (VStr ("1. Song — A, B  [spotify:track:1]" +:+ LF
                   +:+ "2. Tune — C  [spotify:track:2]"))).
Proof.
  refine (f_equal fst
            (search_lists_tracks_in_order (H := tracks_platform)
               demo_search_args
               (VObj [("tracks",
                       VObj [("items",
                              VArr (List.map rich_track demo_tracks))])])
               (List.map rich_track demo_tracks)
               demo_tracks (warm_world (H := tracks_platform)) _ _ _ _ _)).
  - vm_compute. reflexivity.
  - reflexivity.
  - repeat constructor; apply rich_track_is_track.
  - discriminate.
Defined.

Lemma top_tracks_listed_in_order_witness :
  fst (get_top_tracks_handler (H := top_platform) demo_top_args
         (warm_world (H := top_platform)))
  = Ok (text_result
          (VStr ("1. Song — A, B" +:+ LF +:+ "2. Tune — C"))).
Proof.
  refine (f_equal fst
            (top_tracks_listed_in_order (H := top_platform) demo_top_args
               [("items", VArr (List.map rich_track demo_tracks))]
               (List.map rich_track demo_tracks)
               demo_tracks (warm_world (H := top_platform)) _ _ _ _ _)).
  - vm_compute. reflexivity.
  - reflexivity.
  - repeat constructor; apply rich_track_has_name_and_artists.
  - discriminate.
Defined.

Lemma search_malformed_track_throws_witness :
  fst (search_tracks_handler (H := malformed_platform) demo_search_args
         (warm_world (H := malformed_platform)))
  = Throw TypeError.
Proof.
  refine (f_equal fst
            (search_malformed_track_throws (H := malformed_platform)
               demo_search_args
               (VObj [("tracks",
                       VObj [("items",
                              VArr [track_value "Song" ["A"] "spotify:track:1";
                                    VObj broken_track])])])
               [track_value "Song" ["A"] "spotify:track:1"; VObj broken_track]
               broken_track (warm_world (H := malformed_platform)) _ _ _ _ _)).
  - vm_compute. reflexivity.
  - reflexivity.
  - right. left. reflexivity.
  - intros l. discriminate.
Defined.

Lemma search_api_error_surfaces_witness :
  let w := warm_world (H := refusing_platform) in
  fst (search_tracks_handler (H := refusing_platform) demo_search_args w)
  = Throw (JsError "Spotify API error: 401 denied")
  /\ net_log (snd (search_tracks_handler (H := refusing_platform)
                     demo_search_args w))
     = [api_request (VStr "cached-token") (search_endpoint demo_search_args)
          "GET" VUndefined].
Proof.
  refine (search_api_error_surfaces (H := refusing_platform) demo_search_args
            (error_response 401 "denied")
            (warm_world (H := refusing_platform)) _ _ _); reflexivity.
Defined.

Lemma create_playlist_two_requests_witness :
  create_playlist_handler (H := playlist_platform) demo_playlist_args
    (warm_world (H := playlist_platform))
  = (Ok (created_result (VStr "Mix")
           (VStr "https://open.spotify.com/playlist/p1")),
     {| store := store (warm_world (H := playlist_platform));
        net_log :=
          [api_request (VStr "cached-token") "v1/me" "GET" VUndefined;
           api_request (VStr "cached-token") "v1/users/user%201/playlists"
             "POST" (create_playlist_body demo_playlist_args)];
        clock_reads := 2 |}).
Proof.
  refine (create_playlist_two_requests (H := playlist_platform)
            demo_playlist_args (warm_world (H := playlist_platform))
            (ok_response (VObj demo_me)) (ok_response (VObj demo_playlist))
            demo_me demo_playlist _ _ _ _ _ _ _ _); reflexivity.
Defined.

Lemma create_playlist_stops_on_lookup_error_witness :
  let w := warm_world (H := refusing_platform) in
  fst (create_playlist_handler (H := refusing_platform) demo_playlist_args w)
  = Throw (JsError "Spotify API error: 401 denied")
  /\ net_log (snd (create_playlist_handler (H := refusing_platform)
                     demo_playlist_args w))
     = [api_request (VStr "cached-token") "v1/me" "GET" VUndefined].
Proof.
  refine (create_playlist_stops_on_lookup_error (H := refusing_platform)
            demo_playlist_args (warm_world (H := refusing_platform))
            (error_response 401 "denied") _ _ _); reflexivity.
Defined.

Lemma create_playlist_without_user_id_witness :
  let w := warm_world (H := anonymous_platform) in
  fst (getCurrentUserId (H := anonymous_platform) w) = Ok VUndefined
  /\ net_log (snd (create_playlist_handler (H := anonymous_platform)
                     demo_playlist_args w))
     = [api_request (VStr "cached-token") "v1/me" "GET" VUndefined;
        api_request (VStr "cached-token") "v1/users/undefined/playlists"
          "POST" (create_playlist_body demo_playlist_args)].
Proof.
  refine (create_playlist_without_user_id (H := anonymous_platform)
            demo_playlist_args (warm_world (H := anonymous_platform))
            (ok_response (VObj [])) [] _ _ _ _ _ _); reflexivity.
Defined.

Lemma search_limit_out_of_bounds_rejected_witness :
  callTool (spotify_search_tracks (H := bare_platform))
    (VObj [("q", VStr "jazz"); ("limit", VNum (Int 51))])
    (initial_world (H := bare_platform))
  = (Throw InvalidParams, initial_world (H := bare_platform))
  /\ callTool (spotify_search_tracks (H := bare_platform))
       (VObj [("q", VStr "jazz"); ("limit", VNull)])
       (initial_world (H := bare_platform))
     = (Throw InvalidParams, initial_world (H := bare_platform)).
Proof.
  split.
  - refine (search_limit_out_of_bounds_rejected (H := bare_platform)
              [("q", VStr "jazz"); ("limit", VNum (Int 51))]
              (initial_world (H := bare_platform)) _ _).
    + discriminate.
    + intros z [= <-]. right. lia.
  - refine (search_limit_out_of_bounds_rejected (H := bare_platform)
              [("q", VStr "jazz"); ("limit", VNull)]
              (initial_world (H := bare_platform)) _ _).
    + discriminate.
    + intros z E. discriminate E.
Defined.

Lemma search_limit_defaults_to_ten_witness :
  callTool (spotify_search_tracks (H := bare_platform))
    (VObj [("q", VStr "jazz")]) (initial_world (H := bare_platform))
  = search_tracks_handler (H := bare_platform)
      (VObj [("q", VStr "jazz"); ("limit", VNum (Int 10))])
      (initial_world (H := bare_platform))
  /\ search_endpoint (VObj [("q", VStr "jazz"); ("limit", VNum (Int 10))])
     = "v1/search?type=track&limit=10&q=jazz".
Proof.
  refine (search_limit_defaults_to_ten (H := bare_platform)
            [("q", VStr "jazz")] "jazz" (initial_world (H := bare_platform))
            _ _); reflexivity.
Defined.

Lemma one_reply_per_request_witness :
  exists evs : list Event,
    events (listener_step (H := demo_setup) (Some good_callback) listening)
    = ([] ++ evs)%list
    /\ List.length (List.filter is_respond evs) = 1%nat
    /\ (List.length (List.filter is_fetch evs) <= 1)%nat.
Proof.
  refine (one_reply_per_request (H := demo_setup) listening
            (Some good_callback) _).
  reflexivity.
Defined.

Lemma callback_always_ends_flow_witness :
  flow (listener_step (H := demo_setup) (Some "/callback") listening)
  = Exited 0
  \/ flow (listener_step (H := demo_setup) (Some "/callback") listening)
     = Exited 1.
Proof.
  refine (callback_always_ends_flow (H := demo_setup) listening "/callback"
            _ _); reflexivity.
Defined.

Lemma success_needs_matching_state_witness :
  exists (u : string) (ps : list (string * string)) (c : string)
         (r : Response),
    Some good_callback = Some u
    /\ url_search_params (SetupPlatform := demo_setup) u = Some ps
    /\ truthy (search_get ps "error") = false
    /\ search_get ps "state" = VStr (STATE (H := demo_setup))
    /\ search_get ps "code" = VStr c
    /\ c <> ""
    /\ exchange_reply (SetupPlatform := demo_setup)
         (exchange_request (H := demo_setup) c) = Some r
    /\ resp_ok r = true.
Proof.
  refine (success_needs_matching_state (H := demo_setup) listening
            (Some good_callback) _ _).
  - reflexivity.
  - left. vm_compute. reflexivity.
Defined.

Lemma granted_exchange_persists_witness :
  let after :=
    listener_step (H := demo_setup) (Some good_callback) listening_with_files in
  let lines := env_lines (H := demo_setup) (VStr "RT") (VStr "AT") in
  flow after = Exited 0
  /\ files after !! ".env" = Some ("OLD=1" +:+ LF +:+ lines)
  /\ files after !! ".gitignore" = Some "node_modules"
  /\ forall p : string,
       p <> ".env" -> p <> ".gitignore" ->
       files after !! p = files listening_with_files !! p.
Proof.
  refine (granted_exchange_persists (H := demo_setup) listening_with_files
            good_callback good_params "c" (ok_response (VObj exchange_fields))
            exchange_fields _ _ _ _ _ _ _ _ _ _ _ _);
    try reflexivity.
  discriminate.
Defined.

Lemma unwritable_env_still_exits_0_witness :
  let P := setup_with (Some (ok_response (VObj exchange_fields))) [".env"] in
  let after := listener_step (H := P) (Some good_callback) listening in
  flow after = Exited 0
  /\ files after = ∅
  /\ In (success_reply) (events after).
Proof.
  refine (unwritable_env_still_exits_0
            (H := setup_with (Some (ok_response (VObj exchange_fields)))
                    [".env"])
            listening good_callback good_params "c"
            (ok_response (VObj exchange_fields)) exchange_fields
            _ _ _ _ _ _ _ _ _ _ _);
    try reflexivity.
  discriminate.
Defined.

Lemma refused_exchange_exits_1_witness :
  let P := setup_with (Some (error_response 400 "invalid_grant")) [] in
  let after := listener_step (H := P) (Some good_callback) listening in
  flow after = Exited 1
  /\ files after = ∅
  /\ List.filter is_fetch (events after)
     = ([] ++ [Fetch (exchange_request (H := P) "c")])%list
  /\ In (Respond 500 [] "Token exchange failed") (events after).
Proof.
  refine (refused_exchange_exits_1
            (H := setup_with (Some (error_response 400 "invalid_grant")) [])
            listening good_callback good_params "c"
            (error_response 400 "invalid_grant")
            _ _ _ _ _ _ _ _ _);
    try reflexivity.
  discriminate.
Defined.
